(** * Lead fetcher: normalisation, identity store, paged fetch, ingestion

    A shallow embedding of [src/fetcher.py] and [src/utils/db.py].

    - Python values of type [Optional[str]] are [option string]
      ([None] is Python's [None]); strings are taken as ASCII text.
    - A Python [dict] with string keys is a [gmap string _].
    - The SQLite table [seen_leads] is the list of its rows in rowid
      order; a nullable TEXT column is an [option string] and the
      comparison [=] of SQL is three-valued.
    - The HTTP server is a script: the list of what each successive
      [session.get] call produces.  Every request consumes one entry, so
      the fetch loop is structurally recursive on the script. *)

From Stdlib Require Import ZArith Ascii String List Bool Lia.
From stdpp Require Import base option list gmap strings fin_maps.
Import ListNotations.

Local Open Scope string_scope.
Local Open Scope list_scope.
Local Open Scope Z_scope.

(** ** Python values *)

Module Py.

(** [bool(v)] for an [Optional[str]]: [None] and [""] are falsy. *)
Definition truthy (v : option string) : bool :=
  match v with
  | None => false
  | Some s => negb (String.eqb s "")
  end.

(** [a or b]. *)
Definition or (a b : option string) : option string :=
  if truthy a then a else b.

(** The white space removed by [str.strip()] on ASCII text:
    TAB, LF, VT, FF, CR, FS, GS, RS, US and the space. *)
Definition isspace (c : ascii) : bool :=
  let n := nat_of_ascii c in
  ((9 <=? n)%nat && (n <=? 13)%nat)
  || ((28 <=? n)%nat && (n <=? 32)%nat).

Fixpoint lstrip (s : string) : string :=
  match s with
  | EmptyString => EmptyString
  | String c rest => if isspace c then lstrip rest else s
  end.

(** [rstrip] drops a character when it is white space and everything
    after it has been dropped. *)
Fixpoint rstrip (s : string) : string :=
  match s with
  | EmptyString => EmptyString
  | String c rest =>
      match rstrip rest with
      | EmptyString => if isspace c then EmptyString else String c EmptyString
      | kept => String c kept
      end
  end.

Definition strip (s : string) : string := rstrip (lstrip s).

End Py.

(** ** Record normaliser ([normalize_lead]) *)

(** One entry of [field_data]: [item.get("name")] and
    [item.get("values")]. *)
Record field_item := FieldItem {
  item_name : option string;
  item_values : option (list (option string))
}.

(** A raw lead as decoded from the page: [raw.get("id")],
    [raw.get("created_time")], [raw.get("field_data", [])]. *)
Record raw_lead := RawLead {
  raw_id : option string;
  raw_created_time : option string;
  raw_field_data : option (list field_item)
}.

(** The flat dict [normalize_lead] returns. *)
Record flat_lead := FlatLead {
  lead_id : option string;
  name : option string;
  email : option string;
  phone : option string;
  created_time : option string
}.

(** [(item.get("values") or [None])[0]] *)
Definition first_value (it : field_item) : option string :=
  match item_values it with
  | Some (v :: _) => v
  | _ => None
  end.

(** The dict comprehension of [normalize_lead]: entries are written in
    list order, so a later entry with the same name overwrites an
    earlier one; entries whose name is falsy are left out. *)
Definition add_field (m : gmap string (option string)) (it : field_item)
  : gmap string (option string) :=
  match item_name it with
  | Some k => if Py.truthy (item_name it) then <[k := first_value it]> m else m
  | None => m
  end.

Definition fields_of (items : list field_item) : gmap string (option string) :=
  foldl add_field ∅ items.

(** [fields.get(k)] *)
Definition dict_get (fields : gmap string (option string)) (k : string)
  : option string :=
  match fields !! k with
  | Some v => v
  | None => None
  end.

Definition derive_name (fields : gmap string (option string)) : option string :=
  let name := dict_get fields "full_name" in
  if negb (Py.truthy name) then
    let first := default "" (Py.or (dict_get fields "first_name") (Some "")) in
    let last := default "" (Py.or (dict_get fields "last_name") (Some "")) in
    let combined := Py.strip (first ++ " " ++ last)%string in
    if Py.truthy (Some combined) then Some combined else None
  else name.

Definition derive_phone (fields : gmap string (option string)) : option string :=
  Py.or (Py.or (dict_get fields "phone") (dict_get fields "phone_number"))
        (dict_get fields "phone_number_ext").

Definition normalize_lead (raw : raw_lead) : option flat_lead :=
  let lead_id := raw_id raw in
  let created_time := raw_created_time raw in
  let fields := fields_of (default [] (raw_field_data raw)) in
  let name := derive_name fields in
  let email := dict_get fields "email" in
  let phone := derive_phone fields in
  if negb (Py.truthy email) && negb (Py.truthy phone) then None
  else Some {| lead_id := lead_id; name := name; email := email;
               phone := phone; created_time := created_time |}.

(** ** Identity store ([LeadDB]) *)

(** SQLite comparisons: [NULL = x] is NULL, and a WHERE clause keeps a row
    only when its condition is true. *)
Module Sql.

Definition eq (a b : option string) : option bool :=
  match a, b with
  | Some x, Some y => Some (String.eqb x y)
  | _, _ => None
  end.

Definition or (a b : option bool) : option bool :=
  match a, b with
  | Some true, _ | _, Some true => Some true
  | Some false, Some false => Some false
  | _, _ => None
  end.

Definition holds (c : option bool) : bool :=
  match c with
  | Some true => true
  | _ => false
  end.

End Sql.

(** A row of [seen_leads]; every column is nullable TEXT. *)
Record row := Row {
  row_lead_id : option string;
  row_name : option string;
  row_email : option string;
  row_phone : option string;
  row_created_time : option string
}.

(** [WHERE lead_id=? OR email=? OR phone=?] *)
Definition where_seen (lead_id email phone : option string) (r : row) : bool :=
  Sql.holds
    (Sql.or (Sql.or (Sql.eq (row_lead_id r) lead_id)
                    (Sql.eq (row_email r) email))
            (Sql.eq (row_phone r) phone)).

(** [is_seen]: [cur.fetchone() is not None]. *)
Definition is_seen (db : list row) (lead_id email phone : option string) : bool :=
  existsb (where_seen lead_id email phone) db.

(** [INSERT OR IGNORE]: the row is dropped when it would break the
    uniqueness of the primary key [lead_id]; NULL keys never collide. *)
Definition pk_conflict (db : list row) (r : row) : bool :=
  existsb (fun r' => Sql.holds (Sql.eq (row_lead_id r') (row_lead_id r))) db.

Definition insert_or_ignore (db : list row) (r : row) : list row :=
  if pk_conflict db r then db else db ++ [r].

(** The argument of [mark_seen]: a bare id string or a lead dict. *)
Inductive lead_or_id :=
| LeadId (s : string)
| LeadDict (d : flat_lead).

(** The row [mark_seen] builds from its argument. *)
Definition row_of (x : lead_or_id) : row :=
  match x with
  | LeadId s => Row (Some s) None None None None
  | LeadDict d => Row (lead_id d) (name d) (email d) (phone d) (created_time d)
  end.

Definition mark_seen (db : list row) (x : lead_or_id) : list row :=
  let r := row_of x in
  if negb (Py.truthy (row_lead_id r)) then db
  else insert_or_ignore db r.

(** ** Ingestion loop of [main] *)

Record pipeline := Pipeline {
  db : list row;
  new_leads : list flat_lead
}.

Inductive status := Completed | Aborted.

(** [normalized.get("email") or ""] *)
Definition or_empty (v : option string) : option string :=
  Py.or v (Some "").

(** The deduplication at the end of the loop body: [is_seen], then
    [mark_seen] and [new_leads.append]. *)
Definition ingest (st : pipeline) (n : flat_lead) : pipeline :=
  if is_seen (db st) (lead_id n) (or_empty (email n)) (or_empty (phone n))
  then st
  else {| db := mark_seen (db st) (LeadDict n);
          new_leads := new_leads st ++ [n] |}.

Section Main.

(** The configuration of a run.  [created_before_since ct] stands for
    [parse_iso_timestamp(ct) < parse_iso_timestamp(since_param)], with
    [None] when a timestamp does not parse or the two datetimes cannot
    be compared (the exception leaves [main]). *)
Variable since_param : option string.
Variable offline_mode : bool.
Variable created_before_since : option string -> option bool.

(** The body of the inner [for] loop; [None] is an exception. *)
Definition process_raw (st : pipeline) (raw : raw_lead) : option pipeline :=
  match normalize_lead raw with
  | None => Some st
  | Some n =>
      if Py.truthy since_param && offline_mode then
        match created_before_since (created_time n) with
        | None => None
        | Some true => Some st
        | Some false => Some (ingest st n)
        end
      else Some (ingest st n)
  end.

Fixpoint process_page (st : pipeline) (page : list raw_lead)
  : pipeline * status :=
  match page with
  | [] => (st, Completed)
  | raw :: rest =>
      match process_raw st raw with
      | None => (st, Aborted)
      | Some st' => process_page st' rest
      end
  end.

Fixpoint process_pages (st : pipeline) (pages : list (list raw_lead))
  : pipeline * status :=
  match pages with
  | [] => (st, Completed)
  | page :: rest =>
      match process_page st page with
      | (st', Completed) => process_pages st' rest
      | aborted => aborted
      end
  end.

(** One run of the pipeline over the pages of a source, against the
    store [d]: the accumulator starts empty. *)
Definition run (d : list row) (pages : list (list raw_lead))
  : pipeline * status :=
  process_pages {| db := d; new_leads := [] |} pages.

End Main.

(** ** Paged fetcher ([fetch_leads]) *)

(** The decoded body of a successful response: [data.get("data")] and
    [data.get("paging")] with, inside it, [paging.get("next")]. *)
Record page_body := PageBody {
  body_data : option (list raw_lead);
  body_paging : option (option string)
}.

(** What one [session.get] call produces: a [RequestException]
    (connection error, timeout), or a response with its status code, its
    [Retry-After] header and its body. *)
Inductive reply :=
| NoReply
| Reply (status_code : Z) (retry_after : option string) (body : page_body).

(** The query parameters of the first request. *)
Record params := Params {
  p_access_token : string;
  p_fields : string;
  p_limit : Z;
  p_since : option string
}.

(** What the generator does that can be seen from outside. *)
Inductive event :=
| Get (url : string) (sent : option params)
| Sleep (delay : Z)
| Yield (leads : list raw_lead).

(** How the generator ends: it returns, an exception leaves it, or the
    script is over while it waits for a reply. *)
Inductive fetch_end := StopIteration | Raised | Waiting.

Definition emit (e : event) (k : list event * fetch_end)
  : list event * fetch_end :=
  (e :: fst k, snd k).

(** [time.sleep(delay)] raises [ValueError] on a negative delay. *)
Definition sleep (delay : Z) (k : list event * fetch_end)
  : list event * fetch_end :=
  if delay <? 0 then ([], Raised) else emit (Sleep delay) k.

(** [resp.raise_for_status()] raises for the 4xx and 5xx codes. *)
Definition raises_for_status (status : Z) : bool :=
  (400 <=? status) && (status <? 600).

(** [data.get("data", [])] *)
Definition leads_of (body : page_body) : list raw_lead :=
  default [] (body_data body).

(** [data.get("paging", {}).get("next")] when the test of [while url]
    lets the loop go on with it: neither [None] nor empty. *)
Definition next_url (body : page_body) : option string :=
  match body_paging body with
  | Some (Some next) => if Py.truthy (Some next) then Some next else None
  | _ => None
  end.

(** The batches a trace yields, in order. *)
Fixpoint yields (t : list event) : list (list raw_lead) :=
  match t with
  | [] => []
  | Yield leads :: t' => leads :: yields t'
  | _ :: t' => yields t'
  end.

Section Fetch.

Variable access_token form_id api_version : string.
Variable limit : Z.
Variable since : option string.
Variable max_retries : Z.

(** [int(retry_after)], [None] when it raises. *)
Variable py_int : string -> option Z.

Definition base_url : string :=
  ("https://graph.facebook.com/v" ++ api_version ++ "/" ++ form_id
     ++ "/leads")%string.

Definition initial_params : params :=
  {| p_access_token := access_token;
     p_fields := "id,created_time,field_data";
     p_limit := limit;
     p_since := if Py.truthy since then since else None |}.

(** The delay before a 429 is retried. *)
Definition retry_delay (retry_after : option string) (attempt : Z) : Z :=
  match retry_after with
  | Some h =>
      if Py.truthy retry_after then
        match py_int h with
        | Some d => d
        | None => 2 ^ attempt
        end
      else 2 ^ attempt
  | None => 2 ^ attempt
  end.

(** One iteration of the inner [while True] loop, for the request of
    [url] at retry count [attempt]; a page that succeeds hands over to
    the next iteration of [while url] with the count back at zero.
    [except] is the handler of [RequestException]. *)
Fixpoint fetch_loop (url : string) (ps : option params) (attempt : Z)
    (script : list reply) {struct script} : list event * fetch_end :=
  match script with
  | [] => ([], Waiting)
  | r :: rest =>
      let except (attempt : Z) :=
        if attempt <? max_retries then
          sleep (2 ^ attempt) (fetch_loop url ps (attempt + 1) rest)
        else ([], Raised) in
      emit (Get url (if String.eqb url base_url then ps else None))
        match r with
        | NoReply => except attempt
        | Reply status retry_after body =>
            if 500 <=? status then except attempt
            else if status =? 429 then
              sleep (retry_delay retry_after attempt)
                (let attempt := attempt + 1 in
                 if max_retries <? attempt then
                   if raises_for_status status then except attempt
                   else fetch_loop url ps attempt rest
                 else fetch_loop url ps attempt rest)
            else if raises_for_status status then except attempt
            else
              emit (Yield (leads_of body))
                match next_url body with
                | Some next => fetch_loop next None 0 rest
                | None => ([], StopIteration)
                end
        end
  end.

Definition fetch_leads (script : list reply) : list event * fetch_end :=
  if Py.truthy (Some base_url)
  then fetch_loop base_url (Some initial_params) 0 script
  else ([], StopIteration).

End Fetch.

(** ** Sample inputs *)

Definition scenario_raw : raw_lead :=
  {| raw_id := Some "L1";
     raw_created_time := Some "2025-07-01T00:00:00Z";
     raw_field_data :=
       Some [ FieldItem (Some "email") (Some [Some "a@x.com"]);
              FieldItem (Some "first_name") (Some [Some "Ann"]) ] |}.

Definition phone_only_raw : raw_lead :=
  {| raw_id := Some "L7";
     raw_created_time := None;
     raw_field_data :=
       Some [ FieldItem (Some "phone_number") (Some [Some "555-0100"]) ] |}.

(** ** Predicates used in the statements *)

(** The flattened value of field [k] of a raw lead. *)
Definition field (raw : raw_lead) (k : string) : option string :=
  dict_get (fields_of (default [] (raw_field_data raw))) k.

(** Some entry of [field_data] is named [k]. *)
Definition has_field (k : string) (raw : raw_lead) : bool :=
  existsb (fun it => match item_name it with
                     | Some n => String.eqb n k
                     | None => false
                     end)
          (default [] (raw_field_data raw)).

(** The requests a trace makes, in order. *)
Fixpoint gets (t : list event) : list string :=
  match t with
  | [] => []
  | Get url _ :: t' => url :: gets t'
  | _ :: t' => gets t'
  end.

(** The kinds of reply, as the fetch loop tells them apart. *)
Definition is_429 (r : reply) : bool :=
  match r with
  | NoReply => false
  | Reply status _ _ => status =? 429
  end.

Definition is_5xx (r : reply) : bool :=
  match r with
  | NoReply => false
  | Reply status _ _ => 500 <=? status
  end.

(** The failures that go to the [except] clause straight away: no reply,
    a 5xx, or another code [raise_for_status] refuses. *)
Definition transient (r : reply) : bool :=
  match r with
  | NoReply => true
  | Reply status _ _ =>
      (500 <=? status) || (negb (status =? 429) && raises_for_status status)
  end.

Definition failing (r : reply) : bool := is_429 r || transient r.

Definition succeeds (r : reply) : bool := negb (failing r).

(** The [Retry-After] header of a 429, when it reads as an integer, is
    not negative. *)
Definition retry_after_ok (py_int : string -> option Z) (r : reply) : bool :=
  match r with
  | Reply status (Some h) _ =>
      if is_429 r && Py.truthy (Some h) then
        match py_int h with
        | Some d => 0 <=? d
        | None => true
        end
      else true
  | _ => true
  end.

Definition count (p : reply -> bool) (l : list reply) : nat :=
  length (List.filter p l).

(** The retries of 429 replies and those of the other failures are
    counted apart, each up to [max_retries]: a page goes through when
    neither kind of failure occurs more often than that before the
    reply that succeeds. *)
Definition retry_counts_separate : Prop :=
  forall (access_token form_id api_version : string) (limit : Z)
         (since : option string) (max_retries : Z)
         (py_int : string -> option Z)
         (fs : list reply) (status : Z) (retry_after : option string)
         (body : page_body),
    forallb failing fs = true ->
    forallb (retry_after_ok py_int) fs = true ->
    Z.of_nat (count is_429 fs) <= max_retries ->
    Z.of_nat (count transient fs) <= max_retries ->
    succeeds (Reply status retry_after body) = true ->
    yields (fst (fetch_leads access_token form_id api_version limit since
                   max_retries py_int
                   (fs ++ [Reply status retry_after body])))
    = [leads_of body].

(** A source of pages that answers every request at once: page after
    page, each but the last with a link to the next. *)
Definition served (body : page_body) : reply := Reply 200 None body.

(** The page links to a next one. *)
Definition has_next (body : page_body) : bool :=
  match next_url body with
  | Some _ => true
  | None => false
  end.

Fixpoint chained (bodies : list page_body) : bool :=
  match bodies with
  | [] => false
  | body :: rest =>
      match rest with
      | [] => match next_url body with Some _ => false | None => true end
      | _ :: _ =>
          match next_url body with Some _ => chained rest | None => false end
      end
  end.

Definition blank_body : page_body :=
  {| body_data := None; body_paging := None |}.

Definition linked_body (leads : list raw_lead) (next : string) : page_body :=
  {| body_data := Some leads; body_paging := Some (Some next) |}.

Definition last_body (leads : list raw_lead) : page_body :=
  {| body_data := Some leads; body_paging := Some None |}.

(** What the consumer of the generator gets: the batches, and how the
    generator ends. *)
Definition outcome (r : list event * fetch_end)
  : list (list raw_lead) * fetch_end :=
  (yields (fst r), snd r).

(** An [int] that reads no header, for the sample runs. *)
Definition no_int (h : string) : option Z := None.

Definition two_pages : list page_body :=
  [ linked_body [scenario_raw] "https://graph.facebook.com/next";
    last_body [phone_only_raw] ].

(** The since filter lets the record through: it is off, or the record
    is not older than the cutoff. *)
Definition passes_since (since_param : option string) (offline_mode : bool)
    (created_before_since : option string -> option bool) (n : flat_lead)
  : bool :=
  if Py.truthy since_param && offline_mode then
    match created_before_since (created_time n) with
    | Some false => true
    | _ => false
    end
  else true.

(** The arguments [main] passes to [is_seen] for a flat record. *)
Definition seen (d : list row) (n : flat_lead) : bool :=
  is_seen d (lead_id n) (or_empty (email n)) (or_empty (phone n)).

(** The store after [k] successive runs over the same pages. *)
Fixpoint store_after (since_param : option string) (offline_mode : bool)
    (created_before_since : option string -> option bool)
    (k : nat) (d : list row) (pages : list (list raw_lead)) : list row :=
  match k with
  | O => d
  | S k' =>
      store_after since_param offline_mode created_before_since k'
        (db (fst (run since_param offline_mode created_before_since d pages)))
        pages
  end.

(** Whenever [is_seen] reports a match, some row matches on the id, on a
    non-empty email or on a non-empty phone: an empty value alone never
    makes a match. *)
Definition empty_never_matches : Prop :=
  forall (d : list row) (lead_id email phone : option string),
    is_seen d lead_id email phone = true ->
    exists r, In r d /\
      (Sql.holds (Sql.eq (row_lead_id r) lead_id) = true
       \/ (Py.truthy email = true
           /\ Sql.holds (Sql.eq (row_email r) email) = true)
       \/ (Py.truthy phone = true
           /\ Sql.holds (Sql.eq (row_phone r) phone) = true)).

(** A second run over the same pages, against the store the first run
    left, appends nothing. *)
Definition rerun_emits_nothing : Prop :=
  forall (since_param : option string) (offline_mode : bool)
         (created_before_since : option string -> option bool)
         (d : list row) (pages : list (list raw_lead)),
    let first := run since_param offline_mode created_before_since d pages in
    new_leads (fst (run since_param offline_mode created_before_since
                        (db (fst first)) pages)) = [].

(** Two leads that carry an empty email string, with distinct ids and
    phones. *)
Definition blank_email_raw (id ph : string) : raw_lead :=
  {| raw_id := Some id;
     raw_created_time := Some "2025-07-01T00:00:00Z";
     raw_field_data :=
       Some [ FieldItem (Some "email") (Some [Some ""]);
              FieldItem (Some "phone") (Some [Some ph]) ] |}.

(** A lead without an id. *)
Definition idless_raw : raw_lead :=
  {| raw_id := None;
     raw_created_time := Some "2025-07-01T00:00:00Z";
     raw_field_data :=
       Some [ FieldItem (Some "email") (Some [Some "b@x.com"]) ] |}.

Definition idless_flat : flat_lead :=
  {| lead_id := None; name := None; email := Some "b@x.com"; phone := None;
     created_time := Some "2025-07-01T00:00:00Z" |}.

Definition ann : flat_lead :=
  {| lead_id := Some "L1"; name := Some "Ann"; email := Some "a@x.com";
     phone := None; created_time := Some "2025-07-01T00:00:00Z" |}.

Definition ann_again : flat_lead :=
  {| lead_id := Some "L2"; name := None; email := Some "a@x.com";
     phone := Some "555-0101"; created_time := None |}.

(** ** The rest of the store interface *)

(** [fetch_all]: the rows in rowid order; [LIMIT int(limit)] is added
    only when [limit] is truthy (neither [None] nor 0), and a negative
    LIMIT is no limit in SQLite. *)
Definition fetch_all (db : list row) (limit : option Z) : list row :=
  match limit with
  | None => db
  | Some n =>
      if n =? 0 then db
      else if n <? 0 then db
      else take (Z.to_nat n) db
  end.

(** The primary key: no two rows hold the same id (NULLs apart). *)
Definition pk_unique (db : list row) : Prop :=
  NoDup (omap row_lead_id db).

(** No row holds an absent or empty id. *)
Definition ids_present (db : list row) : Prop :=
  Forall (fun r => Py.truthy (row_lead_id r) = true) db.

(** The rows [main] stores for a list of new leads: one per lead that
    has an id. *)
Definition stored_rows (ls : list flat_lead) : list row :=
  map (fun n => row_of (LeadDict n))
      (List.filter (fun n => Py.truthy (lead_id n)) ls).

(** The new leads of a run, as the loop builds them: each is unseen in
    the store as it stands when the lead comes up. *)
Fixpoint fresh_from (d : list row) (ls : list flat_lead) : Prop :=
  match ls with
  | [] => True
  | n :: rest => seen d n = false /\ fresh_from (d ++ stored_rows [n]) rest
  end.

(** The records the loop passes over: those the normaliser rejects and,
    when the since filter is on, those older than the cutoff. *)
Definition skipped (since_param : option string) (offline_mode : bool)
    (created_before_since : option string -> option bool) (raw : raw_lead)
  : bool :=
  match normalize_lead raw with
  | None => true
  | Some n =>
      Py.truthy since_param && offline_mode
      && match created_before_since (created_time n) with
         | Some true => true
         | _ => false
         end
  end.

Definition phone_only_flat : flat_lead :=
  {| lead_id := Some "L7"; name := None; email := None;
     phone := Some "555-0100"; created_time := None |}.

(** The delays a trace sleeps, in order. *)
Fixpoint sleeps (t : list event) : list Z :=
  match t with
  | [] => []
  | Sleep delay :: t' => delay :: sleeps t'
  | _ :: t' => sleeps t'
  end.

(** No request of the trace carries query parameters. *)
Definition bare_request (e : event) : Prop :=
  match e with
  | Get _ sent => sent = None
  | _ => True
  end.

(** The backoff delays from retry count [attempt] on: [2 ** attempt],
    [2 ** (attempt + 1)], ... *)
Fixpoint backoff (attempt : Z) (n : nat) : list Z :=
  match n with
  | O => []
  | S n' => 2 ^ attempt :: backoff (attempt + 1) n'
  end.

(** An [int] that reads every header as -1, for the sample runs. *)
Definition minus_one_int (h : string) : option Z := Some (-1).

(** ** Output and the two modes of [main] *)

(** The file [write_output] writes: [new_leads.json], the JSON array of
    the leads, or [new_leads.csv], the header and one row per lead, both
    in the order of the list.  The file stands for its leads: how they
    are serialised is left out. *)
Inductive output_file :=
| NewLeadsJson (leads : list flat_lead)
| NewLeadsCsv (leads : list flat_lead).

Definition write_output (leads : list flat_lead) (output_format : string)
  : option output_file :=
  match leads with
  | [] => None
  | _ :: _ =>
      Some (if String.eqb output_format "json"
            then NewLeadsJson leads
            else NewLeadsCsv leads)
  end.

(** How [main] ends once the configuration is read: it has called
    [write_output], an exception has left it, or (the script of replies
    being over) it still waits for the server. *)
Inductive main_end :=
| Written (file : option output_file)
| Crashed
| Unfinished.

Section MainModes.

Variable access_token form_id api_version : string.
Variable limit : Z.
Variable max_retries : Z.
Variable py_int : string -> option Z.
Variable since_param : option string.
Variable created_before_since : option string -> option bool.
Variable output_format : string.

(** Live mode: the pages are those [fetch_leads] yields, consumed one by
    one; an exception of the generator leaves [main] after the pages
    yielded before it have been processed. *)
Definition main_live (d : list row) (script : list reply)
  : list row * main_end :=
  let fetched :=
    fetch_leads access_token form_id api_version limit since_param
      max_retries py_int script in
  match process_pages since_param false created_before_since
          {| db := d; new_leads := [] |} (yields (fst fetched)) with
  | (st, Aborted) => (db st, Crashed)
  | (st, Completed) =>
      (db st,
       match snd fetched with
       | StopIteration => Written (write_output (new_leads st) output_format)
       | Raised => Crashed
       | Waiting => Unfinished
       end)
  end.

(** Offline mode: the one page of the sample file. *)
Definition main_offline (d : list row) (sample : page_body)
  : list row * main_end :=
  match process_pages since_param true created_before_since
          {| db := d; new_leads := [] |} [leads_of sample] with
  | (st, Aborted) => (db st, Crashed)
  | (st, Completed) =>
      (db st, Written (write_output (new_leads st) output_format))
  end.

End MainModes.

(** The entry of [field_data] that decides field [k]: the last one of
    that name. *)
Definition named (k : string) (it : field_item) : bool :=
  match item_name it with
  | Some n => String.eqb n k
  | None => false
  end.

Fixpoint last_named (k : string) (items : list field_item)
  : option field_item :=
  match items with
  | [] => None
  | it :: rest =>
      match last_named k rest with
      | Some later => Some later
      | None => if named k it then Some it else None
      end
  end.

(** The field names [normalize_lead] reads. *)
Definition known_names : list string :=
  ["full_name"; "first_name"; "last_name"; "email";
   "phone"; "phone_number"; "phone_number_ext"].

Definition known_field (it : field_item) : bool :=
  existsb (fun k => named k it) known_names.

(** A raw lead with the entries of other names taken out. *)
Definition pruned (raw : raw_lead) : raw_lead :=
  {| raw_id := raw_id raw;
     raw_created_time := raw_created_time raw;
     raw_field_data :=
       Some (List.filter known_field (default [] (raw_field_data raw))) |}.

Definition repeated_email_raw : raw_lead :=
  {| raw_id := Some "L3";
     raw_created_time := None;
     raw_field_data :=
       Some [ FieldItem (Some "email") (Some [Some "old@x.com"; Some "b"]);
              FieldItem (Some "utm_source") (Some [Some "ad"]);
              FieldItem (Some "email") (Some [Some "new@x.com"]) ] |}.

(** ** The fallback [load_dotenv] *)

(** [s.lstrip(chars)] and [s.rstrip(chars)], for the characters [p]
    holds of, and [s.strip(chars)]. *)
Fixpoint lstrip_of (p : ascii -> bool) (s : string) : string :=
  match s with
  | EmptyString => EmptyString
  | String c rest => if p c then lstrip_of p rest else s
  end.

Fixpoint rstrip_of (p : ascii -> bool) (s : string) : string :=
  match s with
  | EmptyString => EmptyString
  | String c rest =>
      match rstrip_of p rest with
      | EmptyString => if p c then EmptyString else String c EmptyString
      | kept => String c kept
      end
  end.

Definition strip_of (p : ascii -> bool) (s : string) : string :=
  rstrip_of p (lstrip_of p s).

(** [s.split("=", 1)] when ["="] is in [s]: the text before the first
    ["="] and the text after it; [None] when there is none. *)
Fixpoint split_eq (s : string) : option (string * string) :=
  match s with
  | EmptyString => None
  | String c rest =>
      if Ascii.eqb c "="%char then Some (EmptyString, rest)
      else match split_eq rest with
           | Some (key, value) => Some (String c key, value)
           | None => None
           end
  end.

(** [s.startswith("#")] *)
Definition starts_with_hash (s : string) : bool :=
  match s with
  | String c _ => Ascii.eqb c "#"%char
  | EmptyString => false
  end.

(** The double quote and the single quote. *)
Definition is_dquote (c : ascii) : bool := Ascii.eqb c (ascii_of_nat 34).
Definition is_squote (c : ascii) : bool := Ascii.eqb c (ascii_of_nat 39).

(** One line of the file: the key and the value it sets, or [None] for
    a line that is passed over (blank, a comment, without ["="]). *)
Definition parse_line (line : string) : option (string * string) :=
  let stripped := Py.strip line in
  if String.eqb stripped "" || starts_with_hash stripped then None
  else match split_eq stripped with
       | None => None
       | Some (key, value) =>
           Some (key, strip_of is_squote (strip_of is_dquote (Py.strip value)))
       end.

Section Dotenv.

(** The operating system refuses the name or the value (an empty name,
    a null character): [os.environ[key] = value] raises. *)
Variable refused : string -> string -> bool.

(** [os.environ.setdefault(key, value)]; [None] is the exception. *)
Definition setdefault (env : gmap string string) (key value : string)
  : option (gmap string string) :=
  match env !! key with
  | Some _ => Some env
  | None => if refused key value then None else Some (<[key := value]> env)
  end.

(** The loop over the lines of the file. *)
Fixpoint load_lines (env : gmap string string) (lines : list string)
  : option (gmap string string) :=
  match lines with
  | [] => Some env
  | line :: rest =>
      match parse_line line with
      | None => load_lines env rest
      | Some (key, value) =>
          match setdefault env key value with
          | Some env' => load_lines env' rest
          | None => None
          end
      end
  end.

(** [load_dotenv]: nothing happens when the file does not exist. *)
Definition load_dotenv (env : gmap string string)
    (file : option (list string)) : option (gmap string string) :=
  match file with
  | None => Some env
  | Some lines => load_lines env lines
  end.

End Dotenv.

(** The value the file gives to [key]: that of the first line that sets
    it. *)
Fixpoint first_binding (key : string) (lines : list string) : option string :=
  match lines with
  | [] => None
  | line :: rest =>
      match parse_line line with
      | Some (k, v) => if String.eqb k key then Some v
                       else first_binding key rest
      | None => first_binding key rest
      end
  end.

Definition sample_dotenv : list string :=
  [ "# credentials";
    "";
    "LEAD_FORM_ID = 'abc' ";
    "API_VERSION=17.0";
    "API_VERSION=18.0";
    "not a setting" ].

(** * Properties *)

(** ** Normaliser *)

Lemma truthy_or a b : Py.truthy (Py.or a b) = Py.truthy a || Py.truthy b.
Proof. unfold Py.or. destruct (Py.truthy a) eqn:E; simpl; [exact E | reflexivity]. Qed.

Lemma add_field_other m it k :
  item_name it <> Some k -> add_field m it !! k = m !! k.
Proof.
  intros Hne. unfold add_field.
  destruct (item_name it) as [n|]; [|reflexivity].
  destruct (Py.truthy (Some n)); [|reflexivity].
  apply lookup_insert_ne. congruence.
Qed.

Lemma foldl_add_field_other items : forall m k,
  existsb (fun it => match item_name it with
                     | Some n => String.eqb n k
                     | None => false
                     end) items = false ->
  foldl add_field m items !! k = m !! k.
Proof.
  induction items as [|it items IH]; intros m k H; simpl in *; [reflexivity|].
  apply orb_false_iff in H as [Hit Hrest].
  rewrite IH by exact Hrest.
  apply add_field_other.
  destruct (item_name it) as [n|]; [|discriminate].
  intros [= ->]. rewrite String.eqb_refl in Hit. discriminate.
Qed.

Lemma field_missing raw k : has_field k raw = false -> field raw k = None.
Proof.
  intros H. unfold field, dict_get, fields_of.
  rewrite foldl_add_field_other by exact H.
  rewrite lookup_empty. reflexivity.
Qed.

Lemma phone_truthy raw :
  Py.truthy (derive_phone (fields_of (default [] (raw_field_data raw))))
  = Py.truthy (field raw "phone") || Py.truthy (field raw "phone_number")
    || Py.truthy (field raw "phone_number_ext").
Proof. unfold derive_phone, field. rewrite !truthy_or. reflexivity. Qed.

(** C9: the raw record L1 with an email and a first name normalises to
    the flat record with lead_id L1, name Ann, that email, no phone and
    the same creation time. *)
Theorem normalize_scenario :
  normalize_lead scenario_raw =
  Some {| lead_id := Some "L1"; name := Some "Ann"; email := Some "a@x.com";
          phone := None; created_time := Some "2025-07-01T00:00:00Z" |}.
Proof. vm_compute. reflexivity. Qed.

(** C7: the normaliser rejects exactly when the flattened email and all
    three phone fields are absent (None or empty, which the truth test of
    the code does not tell apart); an accepted record carries the id and
    the creation time of the raw record whatever they are, so neither
    they nor the name take part in the gate; and a raw record without an
    email field whose phone is given is accepted with email None. *)
Theorem normalize_gate (raw : raw_lead) :
  (normalize_lead raw = None <->
     Py.truthy (field raw "email") = false
     /\ Py.truthy (field raw "phone") = false
     /\ Py.truthy (field raw "phone_number") = false
     /\ Py.truthy (field raw "phone_number_ext") = false)
  /\ (forall n, normalize_lead raw = Some n ->
        lead_id n = raw_id raw /\ created_time n = raw_created_time raw
        /\ email n = field raw "email")
  /\ (has_field "email" raw = false ->
      Py.truthy (field raw "phone") || Py.truthy (field raw "phone_number")
        || Py.truthy (field raw "phone_number_ext") = true ->
      exists n, normalize_lead raw = Some n /\ email n = None
                /\ Py.truthy (phone n) = true).
Proof.
  pose proof (phone_truthy raw) as Hp.
  unfold normalize_lead.
  fold (field raw "email").
  set (ph := derive_phone _) in *.
  split; [|split].
  - split.
    + intros H.
      destruct (Py.truthy (field raw "email")); simpl in H; [discriminate|].
      destruct (Py.truthy ph); simpl in H; [discriminate|].
      symmetry in Hp. apply orb_false_iff in Hp as [Hp H3].
      apply orb_false_iff in Hp as [H1 H2]. auto.
    + intros (He & H1 & H2 & H3). rewrite He, Hp, H1, H2, H3. reflexivity.
  - intros n. destruct (negb _ && negb _); [discriminate|].
    intros [= <-]. auto.
  - intros Hno Hph. rewrite <- Hp in Hph.
    rewrite (field_missing raw "email" Hno), Hph. simpl.
    eexists. split; [reflexivity|]. simpl. split; [reflexivity|exact Hph].
Qed.

Lemma normalize_gate_witness :
  exists n, normalize_lead phone_only_raw = Some n /\ email n = None
            /\ Py.truthy (phone n) = true.
Proof.
  destruct (normalize_gate phone_only_raw) as (_ & _ & H).
  apply H; reflexivity.
Defined.

(** ** Identity store *)

Lemma sql_eq_true a b :
  Sql.holds (Sql.eq a b) = true <-> exists s, a = Some s /\ b = Some s.
Proof.
  destruct a as [x|], b as [y|]; simpl;
    try (split; [discriminate | intros (s & H1 & H2); discriminate]).
  destruct (String.eqb_spec x y) as [->|Hne]; split; eauto.
  - discriminate.
  - intros (s & [= ->] & [= ->]). contradiction.
Qed.

Lemma where_seen_true lid e p r :
  where_seen lid e p r = true <->
  Sql.holds (Sql.eq (row_lead_id r) lid) = true
  \/ Sql.holds (Sql.eq (row_email r) e) = true
  \/ Sql.holds (Sql.eq (row_phone r) p) = true.
Proof.
  unfold where_seen.
  destruct (Sql.eq (row_lead_id r) lid) as [[|]|],
           (Sql.eq (row_email r) e) as [[|]|],
           (Sql.eq (row_phone r) p) as [[|]|]; simpl; intuition discriminate.
Qed.

Lemma is_seen_app d t lid e p :
  is_seen (d ++ t) lid e p = is_seen d lid e p || is_seen t lid e p.
Proof. apply existsb_app. Qed.

Lemma is_seen_prefix (d d' : list row) lid e p :
  d `prefix_of` d' -> is_seen d lid e p = true -> is_seen d' lid e p = true.
Proof. intros [t ->] H. rewrite is_seen_app, H. reflexivity. Qed.

Lemma is_seen_by_id d k e p r :
  In r d -> row_lead_id r = Some k -> is_seen d (Some k) e p = true.
Proof.
  intros Hin Hid. apply existsb_exists. exists r. split; [exact Hin|].
  apply where_seen_true. left. apply sql_eq_true. eauto.
Qed.

Lemma pk_conflict_true d r :
  pk_conflict d r = true <->
  exists r' k, In r' d /\ row_lead_id r' = Some k /\ row_lead_id r = Some k.
Proof.
  unfold pk_conflict. rewrite existsb_exists. split.
  - intros (r' & Hin & H). apply sql_eq_true in H as (k & H1 & H2). eauto.
  - intros (r' & k & Hin & H1 & H2). exists r'. split; [exact Hin|].
    apply sql_eq_true. eauto.
Qed.

Lemma mark_seen_prefix d x : d `prefix_of` mark_seen d x.
Proof.
  unfold mark_seen, insert_or_ignore.
  destruct (negb _); [reflexivity|].
  destruct (pk_conflict _ _); [reflexivity|]. by apply prefix_app_r.
Qed.

Lemma truthy_some v : Py.truthy v = true -> exists k, v = Some k /\ k <> "".
Proof.
  destruct v as [k|]; simpl; [|discriminate].
  destruct (String.eqb_spec k ""); [discriminate|]. eauto.
Qed.



(** C6: [mark_seen] changes nothing when the id is absent or empty, and
    nothing when a row with that id is stored; and once a lead has been
    marked, a later call with the same id, whatever its other fields,
    leaves the store as it is, so that the stored fields are kept. *)
Theorem mark_seen_insert_once (d : list row) (x : lead_or_id) :
  (Py.truthy (row_lead_id (row_of x)) = false -> mark_seen d x = d)
  /\ (forall r, In r d -> row_lead_id r = row_lead_id (row_of x) ->
        mark_seen d x = d)
  /\ (forall y, row_lead_id (row_of y) = row_lead_id (row_of x) ->
        mark_seen (mark_seen d x) y = mark_seen d x).
Proof.
  assert (Hstored : forall d r x, In r d ->
            row_lead_id r = row_lead_id (row_of x) -> mark_seen d x = d).
  { clear. intros d r x Hin Hid. unfold mark_seen, insert_or_ignore.
    destruct (Py.truthy (row_lead_id (row_of x))) eqn:Ht; [simpl|reflexivity].
    apply truthy_some in Ht as (k & Hk & _).
    assert (pk_conflict d (row_of x) = true) as ->; [|reflexivity].
    apply pk_conflict_true. exists r, k. rewrite Hid. auto. }
  split; [|split].
  - intros Hf. unfold mark_seen. rewrite Hf. reflexivity.
  - intros r. apply Hstored.
  - intros y Hy.
    destruct (Py.truthy (row_lead_id (row_of x))) eqn:Ht.
    + destruct (pk_conflict d (row_of x)) eqn:Hc.
      * assert (mark_seen d x = d) as ->.
        { unfold mark_seen, insert_or_ignore. rewrite Ht, Hc. reflexivity. }
        apply pk_conflict_true in Hc as (r & k & Hin & H1 & H2).
        apply (Hstored d r y Hin). congruence.
      * assert (mark_seen d x = d ++ [row_of x]) as ->.
        { unfold mark_seen, insert_or_ignore. rewrite Ht, Hc. reflexivity. }
        apply (Hstored _ (row_of x)); [|congruence].
        apply in_or_app. right. left. reflexivity.
    + unfold mark_seen. rewrite Hy, Ht. reflexivity.
Qed.

Lemma mark_seen_insert_once_witness :
  mark_seen [] (LeadDict idless_flat) = []
  /\ mark_seen [row_of (LeadDict ann)] (LeadId "L1") = [row_of (LeadDict ann)]
  /\ mark_seen (mark_seen [] (LeadDict ann)) (LeadId "L1")
     = mark_seen [] (LeadDict ann).
Proof.
  split; [|split].
  - apply (mark_seen_insert_once [] (LeadDict idless_flat)). reflexivity.
  - apply (mark_seen_insert_once [row_of (LeadDict ann)] (LeadId "L1"))
      with (r := row_of (LeadDict ann)); [left|]; reflexivity.
  - apply (mark_seen_insert_once [] (LeadDict ann)). reflexivity.
Defined.

(** ** Ingestion *)

Lemma normalize_lead_id raw n :
  normalize_lead raw = Some n -> lead_id n = raw_id raw.
Proof.
  unfold normalize_lead. destruct (negb _ && negb _); [discriminate|].
  intros [= <-]. reflexivity.
Qed.

Lemma ingest_new st n :
  seen (db st) n = false ->
  ingest st n = {| db := mark_seen (db st) (LeadDict n);
                   new_leads := new_leads st ++ [n] |}.
Proof. unfold seen, ingest. intros ->. reflexivity. Qed.

Lemma ingest_old st n : seen (db st) n = true -> ingest st n = st.
Proof. unfold seen, ingest. intros ->. reflexivity. Qed.

Lemma ingest_grows st n :
  db st `prefix_of` db (ingest st n)
  /\ new_leads st `prefix_of` new_leads (ingest st n).
Proof.
  unfold ingest. destruct (is_seen _ _ _ _); simpl; [split; reflexivity|].
  split; [apply mark_seen_prefix | by apply prefix_app_r].
Qed.

(** A lead that has an id is seen once it went through [ingest]. *)
Lemma ingest_settles st n :
  Py.truthy (lead_id n) = true -> seen (db (ingest st n)) n = true.
Proof.
  intros Ht. destruct (seen (db st) n) eqn:Hs.
  - rewrite ingest_old by exact Hs. exact Hs.
  - rewrite ingest_new by exact Hs. simpl.
    destruct (truthy_some _ Ht) as (k & Hk & Hne).
    unfold seen, mark_seen, insert_or_ignore. simpl. rewrite Ht, Hk. simpl.
    destruct (pk_conflict _ _) eqn:Hc.
    + apply pk_conflict_true in Hc as (r & k' & Hin & H1 & H2).
      simpl in H2. injection H2 as <-.
      eapply is_seen_by_id; eauto.
    + rewrite is_seen_app. apply orb_true_iff. right.
      eapply is_seen_by_id; [left; reflexivity|]. reflexivity.
Qed.

Lemma mark_seen_new d n :
  Py.truthy (lead_id n) = true -> seen d n = false ->
  mark_seen d (LeadDict n) = d ++ [row_of (LeadDict n)].
Proof.
  intros Ht Hs. unfold mark_seen, insert_or_ignore. simpl. rewrite Ht. simpl.
  destruct (pk_conflict _ _) eqn:Hc; [|reflexivity].
  apply pk_conflict_true in Hc as (r & k & Hin & H1 & H2). simpl in H2.
  unfold seen in Hs. rewrite H2, (is_seen_by_id _ _ _ _ _ Hin H1) in Hs.
  discriminate.
Qed.

Lemma or_empty_truthy v : Py.truthy v = true -> or_empty v = v.
Proof. unfold or_empty, Py.or. intros ->. reflexivity. Qed.



Section MainProperties.

Variable since_param : option string.
Variable offline_mode : bool.
Variable created_before_since : option string -> option bool.

Lemma process_raw_eq st raw :
  process_raw since_param offline_mode created_before_since st raw =
  match normalize_lead raw with
  | None => Some st
  | Some n =>
      if Py.truthy since_param && offline_mode then
        match created_before_since (created_time n) with
        | None => None
        | Some true => Some st
        | Some false => Some (ingest st n)
        end
      else Some (ingest st n)
  end.
Proof. reflexivity. Qed.

Lemma run_eq d pages :
  run since_param offline_mode created_before_since d pages =
  process_pages since_param offline_mode created_before_since
    {| db := d; new_leads := [] |} pages.
Proof. reflexivity. Qed.

Lemma passes_since_eq n :
  passes_since since_param offline_mode created_before_since n =
  if Py.truthy since_param && offline_mode then
    match created_before_since (created_time n) with
    | Some false => true
    | _ => false
    end
  else true.
Proof. reflexivity. Qed.

Local Abbreviation process_raw :=
  (process_raw since_param offline_mode created_before_since).
Local Abbreviation process_page :=
  (process_page since_param offline_mode created_before_since).
Local Abbreviation process_pages :=
  (process_pages since_param offline_mode created_before_since).
Local Abbreviation run := (run since_param offline_mode created_before_since).
Local Abbreviation store_after :=
  (store_after since_param offline_mode created_before_since).
Local Abbreviation passes_since :=
  (passes_since since_param offline_mode created_before_since).

(** What [process_raw] does to a lead that normalises. *)
Lemma process_raw_normalized st raw n :
  normalize_lead raw = Some n ->
  process_raw st raw =
  if Py.truthy since_param && offline_mode then
    match created_before_since (created_time n) with
    | None => None
    | Some true => Some st
    | Some false => Some (ingest st n)
    end
  else Some (ingest st n).
Proof. rewrite process_raw_eq. intros ->. reflexivity. Qed.

Lemma process_raw_passes st raw n :
  normalize_lead raw = Some n -> passes_since n = true ->
  process_raw st raw = Some (ingest st n).
Proof.
  intros Hn Hp. rewrite (process_raw_normalized st raw n Hn).
  rewrite passes_since_eq in Hp.
  destruct (Py.truthy since_param && offline_mode); [|reflexivity].
  destruct (created_before_since (created_time n)) as [[|]|];
    try discriminate; reflexivity.
Qed.

Lemma process_raw_grows st raw st' :
  process_raw st raw = Some st' ->
  db st `prefix_of` db st' /\ new_leads st `prefix_of` new_leads st'.
Proof.
  rewrite !process_raw_eq.
  destruct (normalize_lead raw) as [n|]; [|intros [= <-]; split; reflexivity].
  destruct (Py.truthy since_param && offline_mode).
  - destruct (created_before_since (created_time n)) as [[|]|];
      intros [= <-]; try (split; reflexivity); apply ingest_grows.
  - intros [= <-]. apply ingest_grows.
Qed.

Lemma process_page_grows raws : forall st st' s,
  process_page st raws = (st', s) ->
  db st `prefix_of` db st' /\ new_leads st `prefix_of` new_leads st'.
Proof.
  induction raws as [|raw raws IH]; intros st st' s; simpl.
  - intros [= <- _]. split; reflexivity.
  - destruct (process_raw st raw) as [st1|] eqn:H1.
    + intros H. apply IH in H as [Hd Hn].
      apply process_raw_grows in H1 as [Hd1 Hn1].
      split; etrans; eauto.
    + intros [= <- _]. split; reflexivity.
Qed.

Lemma process_page_app p q : forall st,
  process_page st (p ++ q) =
  match process_page st p with
  | (st', Completed) => process_page st' q
  | aborted => aborted
  end.
Proof.
  induction p as [|raw p IH]; intros st; simpl; [reflexivity|].
  destruct (process_raw st raw); [apply IH | reflexivity].
Qed.

(** The two nested loops go through the records of all pages in order. *)
Lemma process_pages_concat pages : forall st,
  process_pages st pages = process_page st (concat pages).
Proof.
  induction pages as [|p pages IH]; intros st; simpl; [reflexivity|].
  rewrite process_page_app.
  destruct (process_page st p) as [st' [|]]; [apply IH | reflexivity].
Qed.

(** A lead without an id that is not seen at the end of a completed run
    was appended by it. *)
Lemma idless_emitted raw n raws : forall st st',
  normalize_lead raw = Some n -> Py.truthy (raw_id raw) = false ->
  passes_since n = true ->
  In raw raws -> process_page st raws = (st', Completed) ->
  seen (db st') n = false -> In n (new_leads st').
Proof.
  intros st st' Hn Hid Hp. revert st.
  induction raws as [|r raws IH]; intros st Hin Hrun Hs; [destruct Hin|].
  simpl in Hrun.
  destruct (process_raw st r) as [st1|] eqn:H1; [|discriminate].
  destruct Hin as [->|Hin]; [|eauto].
  rewrite (process_raw_passes st raw n Hn Hp) in H1. injection H1 as <-.
  apply process_page_grows in Hrun as [Hd Hl].
  assert (Hs0 : seen (db st) n = false).
  { destruct (seen (db st) n) eqn:E; [|reflexivity].
    rewrite <- Hs. symmetry. unfold seen in *.
    eapply is_seen_prefix; [|exact E].
    etrans; [apply (ingest_grows st n) | exact Hd]. }
  rewrite (ingest_new st n Hs0) in Hl. simpl in Hl.
  destruct Hl as [t ->]. apply in_or_app. left.
  apply in_or_app. right. left. reflexivity.
Qed.


(** The outcome of [process_raw] as an exception does not depend on the
    state. *)
Lemma process_raw_raises st st' raw :
  process_raw st raw = None -> process_raw st' raw = None.
Proof.
  rewrite !process_raw_eq.
  destruct (normalize_lead raw) as [n|]; [|discriminate].
  destruct (Py.truthy since_param && offline_mode); [|discriminate].
  destruct (created_before_since (created_time n)) as [[|]|];
    try discriminate; reflexivity.
Qed.

(** A lead with an id leaves any later store alone once it was processed. *)
Lemma process_raw_settled st st1 stx raw :
  Py.truthy (raw_id raw) = true ->
  process_raw st raw = Some st1 -> db st1 `prefix_of` db stx ->
  process_raw stx raw = Some stx.
Proof.
  intros Hid. rewrite !process_raw_eq.
  destruct (normalize_lead raw) as [n|] eqn:Hn; [|reflexivity].
  rewrite <- (normalize_lead_id raw n Hn) in Hid.
  assert (Hin : forall st1, Some (ingest st n) = Some st1 ->
            db st1 `prefix_of` db stx -> Some (ingest stx n) = Some stx).
  { intros ? [= <-] Hpre. f_equal. apply ingest_old.
    unfold seen. eapply is_seen_prefix; [exact Hpre|].
    apply (ingest_settles st n Hid). }
  destruct (Py.truthy since_param && offline_mode); [|apply Hin].
  destruct (created_before_since (created_time n)) as [[|]|];
    [reflexivity | apply Hin | discriminate].
Qed.

Lemma process_page_settled raws : forall st st' s stx,
  forallb (fun raw => Py.truthy (raw_id raw)) raws = true ->
  process_page st raws = (st', s) -> db st' `prefix_of` db stx ->
  process_page stx raws = (stx, s).
Proof.
  induction raws as [|raw raws IH]; intros st st' s stx Hids; simpl.
  - intros [= _ <-] _. reflexivity.
  - simpl in Hids. apply andb_true_iff in Hids as [Hid Hids].
    destruct (process_raw st raw) as [st1|] eqn:H1.
    + intros Hrun Hpre.
      rewrite (process_raw_settled st st1 stx raw Hid H1).
      * eapply IH; eauto.
      * etrans; [|exact Hpre]. apply (process_page_grows _ _ _ _ Hrun).
    + intros [= _ <-] _. rewrite (process_raw_raises st stx raw H1).
      reflexivity.
Qed.

(** C2 (as amended): when every raw record of the source has an id that
    is present and not empty, a second run over the same pages against
    the store left by the first appends nothing, leaves the store as it
    is and ends as the first run did. *)
Theorem rerun_with_ids_emits_nothing (d : list row)
    (pages : list (list raw_lead)) :
  forallb (fun raw => Py.truthy (raw_id raw)) (concat pages) = true ->
  run (db (fst (run d pages))) pages
  = ({| db := db (fst (run d pages)); new_leads := [] |}, snd (run d pages)).
Proof.
  intros Hids. rewrite !run_eq, !process_pages_concat.
  destruct (process_page {| db := d; new_leads := [] |} (concat pages))
    as [st1 s1] eqn:Hrun.
  simpl. eapply process_page_settled; [exact Hids | exact Hrun | reflexivity].
Qed.

End MainProperties.


Lemma rerun_with_ids_emits_nothing_witness :
  run None false (fun _ => None)
      (db (fst (run None false (fun _ => None) [] [[scenario_raw]])))
      [[scenario_raw]]
  = (Pipeline [row_of (LeadDict ann)] [], Completed).
Proof.
  apply (rerun_with_ids_emits_nothing None false (fun _ => None)
           [] [[scenario_raw]]).
  reflexivity.
Defined.

(** C2 (as stated) fails: a lead without an id is never stored, so the
    second run appends it again. *)
Lemma rerun_emits_idless_lead : ~ rerun_emits_nothing.
Proof.
  intros H.
  specialize (H None false (fun _ => None) [] [[idless_raw]]).
  vm_compute in H. discriminate H.
Qed.

(** ** Paged fetcher *)

Lemma sleep_spec delay k :
  (delay < 0 /\ sleep delay k = ([], Raised))
  \/ (0 <= delay /\ sleep delay k = emit (Sleep delay) k).
Proof.
  unfold sleep. destruct (Z.ltb_spec delay 0); [left | right]; auto.
Qed.

Lemma sleep_pow attempt k :
  sleep (2 ^ attempt) k = emit (Sleep (2 ^ attempt)) k.
Proof.
  destruct (sleep_spec (2 ^ attempt) k) as [[H _]|[_ H]]; [|exact H].
  pose proof (Z.pow_nonneg 2 attempt). lia.
Qed.

Lemma yields_outcome r : yields (fst r) = fst (outcome r).
Proof. reflexivity. Qed.

Lemma outcome_get url sent k : outcome (emit (Get url sent) k) = outcome k.
Proof. reflexivity. Qed.

Lemma outcome_sleep_pow attempt k : outcome (sleep (2 ^ attempt) k) = outcome k.
Proof. rewrite sleep_pow. reflexivity. Qed.

Lemma outcome_yield leads k :
  outcome (emit (Yield leads) k) = (leads :: fst (outcome k), snd (outcome k)).
Proof. reflexivity. Qed.

Section FetchProperties.

Variable access_token form_id api_version : string.
Variable limit : Z.
Variable since : option string.
Variable max_retries : Z.
Variable py_int : string -> option Z.

(** The loop body, one request at a time. *)
Lemma fetch_loop_cons url ps attempt r rest :
  fetch_loop form_id api_version max_retries py_int url ps attempt (r :: rest)
  = let continue attempt :=
      fetch_loop form_id api_version max_retries py_int url ps attempt rest in
    let except (attempt : Z) :=
      if attempt <? max_retries then
        sleep (2 ^ attempt) (continue (attempt + 1))
      else ([], Raised) in
    emit (Get url (if String.eqb url (base_url form_id api_version)
                   then ps else None))
      match r with
      | NoReply => except attempt
      | Reply status retry_after body =>
          if 500 <=? status then except attempt
          else if status =? 429 then
            sleep (retry_delay py_int retry_after attempt)
              (if max_retries <? attempt + 1 then
                 if raises_for_status status then except (attempt + 1)
                 else continue (attempt + 1)
               else continue (attempt + 1))
          else if raises_for_status status then except attempt
          else
            emit (Yield (leads_of body))
              match next_url body with
              | Some next =>
                  fetch_loop form_id api_version max_retries py_int
                    next None 0 rest
              | None => ([], StopIteration)
              end
      end.
Proof. reflexivity. Qed.

Lemma retry_delay_ok status h body attempt :
  retry_after_ok py_int (Reply status h body) = true ->
  status = 429 -> 0 <= retry_delay py_int h attempt.
Proof.
  intros Hok ->. unfold retry_delay.
  pose proof (Z.pow_nonneg 2 attempt ltac:(lia)) as Hpow.
  destruct h as [h|]; [|exact Hpow].
  unfold retry_after_ok, is_429 in Hok. rewrite Z.eqb_refl in Hok.
  destruct (Py.truthy (Some h)); [|exact Hpow].
  destruct (py_int h) as [d|]; [|exact Hpow].
  apply Z.leb_le. exact Hok.
Qed.

Lemma fetch_leads_eq script :
  fetch_leads access_token form_id api_version limit since max_retries py_int
    script
  = fetch_loop form_id api_version max_retries py_int
      (base_url form_id api_version)
      (Some (initial_params access_token limit since)) 0 script.
Proof. reflexivity. Qed.

Local Abbreviation fetch_loop :=
  (fetch_loop form_id api_version max_retries py_int).
Local Abbreviation fetch_leads :=
  (fetch_leads access_token form_id api_version limit since max_retries
     py_int).

(** A failed attempt at the bound is fatal. *)
Lemma failure_at_bound url ps attempt r rest :
  max_retries <= attempt -> failing r = true ->
  outcome (fetch_loop url ps attempt (r :: rest)) = ([], Raised).
Proof.
  intros Hb Hf. rewrite fetch_loop_cons. cbv zeta. rewrite outcome_get.
  assert (Hlt : (attempt <? max_retries) = false) by (apply Z.ltb_ge; lia).
  assert (Hlt1 : (attempt + 1 <? max_retries) = false) by (apply Z.ltb_ge; lia).
  assert (Hgt : (max_retries <? attempt + 1) = true) by (apply Z.ltb_lt; lia).
  destruct r as [|status ra body]; [rewrite Hlt; reflexivity|].
  destruct (500 <=? status) eqn:H5; [rewrite Hlt; reflexivity|].
  destruct (status =? 429) eqn:H429.
  - apply Z.eqb_eq in H429 as ->. rewrite Hgt, Hlt1.
    change (raises_for_status 429) with true. cbv iota.
    destruct (sleep_spec (retry_delay py_int ra attempt) ([], Raised))
      as [[_ ->]|[_ ->]]; reflexivity.
  - unfold failing, is_429, transient in Hf. rewrite H5, H429 in Hf.
    simpl in Hf. rewrite Hf, Hlt. reflexivity.
Qed.

(** A failed attempt below the bound is fatal at once (a negative
    [Retry-After]) or is retried with the count one higher. *)
Lemma failure_below_bound url ps attempt r rest :
  attempt < max_retries -> failing r = true ->
  outcome (fetch_loop url ps attempt (r :: rest)) = ([], Raised)
  \/ outcome (fetch_loop url ps attempt (r :: rest))
     = outcome (fetch_loop url ps (attempt + 1) rest).
Proof.
  intros Hb Hf. rewrite fetch_loop_cons. cbv zeta. rewrite outcome_get.
  assert (Hlt : (attempt <? max_retries) = true) by (apply Z.ltb_lt; lia).
  assert (Hgt : (max_retries <? attempt + 1) = false) by (apply Z.ltb_ge; lia).
  destruct r as [|status ra body];
    [rewrite Hlt, outcome_sleep_pow; right; reflexivity|].
  destruct (500 <=? status) eqn:H5;
    [rewrite Hlt, outcome_sleep_pow; right; reflexivity|].
  destruct (status =? 429) eqn:H429.
  - rewrite Hgt.
    destruct (sleep_spec (retry_delay py_int ra attempt)
                (fetch_loop url ps (attempt + 1) rest))
      as [[_ ->]|[_ ->]]; [left | right]; reflexivity.
  - unfold failing, is_429, transient in Hf. rewrite H5, H429 in Hf.
    simpl in Hf. rewrite Hf, Hlt, outcome_sleep_pow. right. reflexivity.
Qed.

(** With well-formed [Retry-After] headers it is retried. *)
Lemma failure_retried url ps attempt r rest :
  attempt < max_retries -> failing r = true ->
  retry_after_ok py_int r = true ->
  outcome (fetch_loop url ps attempt (r :: rest))
  = outcome (fetch_loop url ps (attempt + 1) rest).
Proof.
  intros Hb Hf Hok. rewrite fetch_loop_cons. cbv zeta. rewrite outcome_get.
  assert (Hlt : (attempt <? max_retries) = true) by (apply Z.ltb_lt; lia).
  assert (Hgt : (max_retries <? attempt + 1) = false) by (apply Z.ltb_ge; lia).
  destruct r as [|status ra body];
    [rewrite Hlt, outcome_sleep_pow; reflexivity|].
  destruct (500 <=? status) eqn:H5;
    [rewrite Hlt, outcome_sleep_pow; reflexivity|].
  destruct (status =? 429) eqn:H429.
  - rewrite Hgt. apply Z.eqb_eq in H429.
    pose proof (retry_delay_ok status ra body attempt Hok H429) as Hd.
    destruct (sleep_spec (retry_delay py_int ra attempt)
                (fetch_loop url ps (attempt + 1) rest))
      as [[Hneg _]|[_ ->]]; [lia | reflexivity].
  - unfold failing, is_429, transient in Hf. rewrite H5, H429 in Hf.
    simpl in Hf. rewrite Hf, Hlt, outcome_sleep_pow. reflexivity.
Qed.

(** A reply that succeeds yields its batch, whatever the count. *)
Lemma success_yields url ps attempt status ra body rest :
  succeeds (Reply status ra body) = true ->
  outcome (fetch_loop url ps attempt (Reply status ra body :: rest))
  = (leads_of body
       :: fst (outcome match next_url body with
                       | Some next => fetch_loop next None 0 rest
                       | None => ([], StopIteration)
                       end),
     snd (outcome match next_url body with
                  | Some next => fetch_loop next None 0 rest
                  | None => ([], StopIteration)
                  end)).
Proof.
  intros Hs. rewrite fetch_loop_cons. cbv zeta. rewrite outcome_get.
  unfold succeeds, failing, is_429, transient in Hs.
  apply negb_true_iff, orb_false_iff in Hs as [H429 Hs].
  apply orb_false_iff in Hs as [H5 Hs]. rewrite H429 in Hs. simpl in Hs.
  rewrite H5, H429, Hs. apply outcome_yield.
Qed.

(** Failed attempts that take the count past the bound end the fetch. *)
Lemma retries_exhausted fs rest url ps : forall attempt,
  forallb failing fs = true -> fs <> [] ->
  max_retries < attempt + Z.of_nat (length fs) ->
  outcome (fetch_loop url ps attempt (fs ++ rest)) = ([], Raised).
Proof.
  induction fs as [|r fs IH]; intros attempt Hf Hne Hlen; [contradiction|].
  simpl in Hf. apply andb_true_iff in Hf as [Hr Hf]. simpl app.
  destruct (Z.lt_ge_cases attempt max_retries) as [Hlow|Hhigh].
  - destruct (failure_below_bound url ps attempt r (fs ++ rest) Hlow Hr)
      as [H|H]; [exact H|].
    rewrite H. apply IH; [exact Hf | | simpl length in Hlen; lia].
    intros ->. simpl in Hlen. lia.
  - apply failure_at_bound; [lia | exact Hr].
Qed.

(** Failed attempts within the bound are absorbed. *)
Lemma retries_absorbed fs rest url ps : forall attempt,
  forallb failing fs = true -> forallb (retry_after_ok py_int) fs = true ->
  attempt + Z.of_nat (length fs) <= max_retries ->
  outcome (fetch_loop url ps attempt (fs ++ rest))
  = outcome (fetch_loop url ps (attempt + Z.of_nat (length fs)) rest).
Proof.
  induction fs as [|r fs IH]; intros attempt Hf Hok Hlen.
  - simpl. rewrite Z.add_0_r. reflexivity.
  - simpl in Hf, Hok. apply andb_true_iff in Hf as [Hr Hf].
    apply andb_true_iff in Hok as [Hrok Hok].
    simpl length in *. simpl app.
    rewrite failure_retried by (try assumption; lia).
    rewrite IH by (try assumption; lia).
    f_equal. f_equal. lia.
Qed.

Lemma forallb_impl {A} (p q : A -> bool) (l : list A) :
  (forall x, p x = true -> q x = true) ->
  forallb p l = true -> forallb q l = true.
Proof.
  intros Hpq. induction l as [|x l IH]; simpl; [reflexivity|].
  intros H. apply andb_true_iff in H as [Hx Hl].
  rewrite (Hpq x Hx), (IH Hl). reflexivity.
Qed.

Lemma is_5xx_failing r : is_5xx r = true -> failing r = true.
Proof.
  destruct r as [|status ra body]; [discriminate|].
  unfold failing, transient, is_5xx. intros ->. apply orb_true_r.
Qed.

Lemma is_5xx_retry_after_ok r : is_5xx r = true -> retry_after_ok py_int r = true.
Proof.
  destruct r as [|status [h|] body]; try reflexivity.
  unfold is_5xx, retry_after_ok, is_429. intros H. apply Z.leb_le in H.
  destruct (Z.eqb_spec status 429); [lia|reflexivity].
Qed.

(** Pages that link on, each served at the first request, are yielded
    and lead to the request of a next page with the count at zero. *)
Lemma linked_pages_fetched bodies rest : forall url ps,
  forallb has_next bodies = true ->
  exists url' ps',
    outcome (fetch_loop url ps 0 (map served bodies ++ rest))
    = (map leads_of bodies ++ fst (outcome (fetch_loop url' ps' 0 rest)),
       snd (outcome (fetch_loop url' ps' 0 rest))).
Proof.
  induction bodies as [|body bodies IH]; intros url ps Hl.
  - exists url, ps. reflexivity.
  - simpl in Hl. apply andb_true_iff in Hl as [Hb Hl].
    unfold has_next in Hb. simpl map. simpl app.
    change (served body) with (Reply 200 None body).
    rewrite success_yields by reflexivity.
    destruct (next_url body) as [next|]; [|discriminate].
    destruct (IH next None Hl) as (url' & ps' & ->).
    exists url', ps'. reflexivity.
Qed.



(** A chain of pages, each served at the first request. *)
Lemma chain_fetched bodies extra : forall url ps,
  chained bodies = true ->
  fst (outcome (fetch_loop url ps 0 (map served bodies ++ extra)))
  = map leads_of bodies
  /\ snd (fetch_loop url ps 0 (map served bodies ++ extra)) = StopIteration
  /\ length (gets (fst (fetch_loop url ps 0 (map served bodies ++ extra))))
     = length bodies.
Proof.
  induction bodies as [|body bodies IH]; intros url ps Hc; [discriminate|].
  simpl map. simpl app. change (served body) with (Reply 200 None body).
  rewrite fetch_loop_cons.
  cbv beta iota zeta.
  change (500 <=? 200) with false. change (200 =? 429) with false.
  change (raises_for_status 200) with false. cbv beta iota.
  simpl in Hc. destruct bodies as [|body' bodies].
  - destruct (next_url body); [discriminate|]. simpl. auto.
  - destruct (next_url body) as [next|]; [|discriminate].
    destruct (IH next None Hc) as (H1 & H2 & H3).
    unfold outcome in *. cbn [emit fst snd yields gets length] in *.
    rewrite H1, H2, H3. auto.
Qed.

(** C8: for a source of N pages, each but the last with a link to the
    next and all served at the first request, the fetch yields the N
    batches in order, makes N requests and stops, whatever the server
    would have answered afterwards. *)
Theorem pagination_terminates (bodies : list page_body) (extra : list reply) :
  chained bodies = true ->
  yields (fst (fetch_leads (map served bodies ++ extra)))
  = map leads_of bodies
  /\ length (yields (fst (fetch_leads (map served bodies ++ extra))))
     = length bodies
  /\ snd (fetch_leads (map served bodies ++ extra)) = StopIteration
  /\ length (gets (fst (fetch_leads (map served bodies ++ extra))))
     = length bodies.
Proof.
  intros Hc. rewrite fetch_leads_eq.
  destruct (chain_fetched bodies extra (base_url form_id api_version)
              (Some (initial_params access_token limit since)) Hc)
    as (H1 & H2 & H3).
  unfold outcome in H1. simpl fst in H1.
  rewrite H1, length_map. auto.
Qed.

End FetchProperties.




Lemma pagination_terminates_witness :
  yields (fst (fetch_leads "token" "form" "16.0" 25 None 3 no_int
                 (map served two_pages ++ [NoReply])))
  = [[scenario_raw]; [phone_only_raw]]
  /\ length (yields (fst (fetch_leads "token" "form" "16.0" 25 None 3 no_int
                            (map served two_pages ++ [NoReply]))))
     = 2%nat
  /\ snd (fetch_leads "token" "form" "16.0" 25 None 3 no_int
            (map served two_pages ++ [NoReply]))
     = StopIteration
  /\ length (gets (fst (fetch_leads "token" "form" "16.0" 25 None 3 no_int
                          (map served two_pages ++ [NoReply]))))
     = 2%nat.
Proof.
  apply (pagination_terminates "token" "form" "16.0" 25 None 3 no_int
           two_pages [NoReply]).
  reflexivity.
Defined.

(** The store of the refutation of C1 arises in a run: of two leads that
    both carry an empty email string, with their own ids and phones, the
    second is dropped as a duplicate of the first. *)
Example blank_emails_collide :
  run None false (fun _ => None) []
      [[blank_email_raw "L1" "111"; blank_email_raw "L2" "222"]]
  = ({| db := [Row (Some "L1") None (Some "") (Some "111")
                   (Some "2025-07-01T00:00:00Z")];
        new_leads := [ {| lead_id := Some "L1"; name := None;
                          email := Some ""; phone := Some "111";
                          created_time := Some "2025-07-01T00:00:00Z" |} ] |},
     Completed).
Proof. vm_compute. reflexivity. Qed.

(** Two leads without an email field do not collide: the stored column
    is NULL, which the empty string does not match. *)
Example missing_emails_do_not_collide :
  is_seen [Row (Some "L1") None None (Some "111") None]
          (Some "L2") (or_empty None) (or_empty (Some "222"))
  = false.
Proof. reflexivity. Qed.

(** * Further properties *)

(** ** Identity store: reading back, invariants *)

(** X1: a lead marked with a usable id is seen from then on under that
    id, whatever email and phone are asked with, and also after any
    later [mark_seen]. *)
Theorem marked_is_seen (d : list row) (x y : lead_or_id)
    (e p : option string) :
  Py.truthy (row_lead_id (row_of x)) = true ->
  is_seen (mark_seen d x) (row_lead_id (row_of x)) e p = true
  /\ is_seen (mark_seen (mark_seen d x) y) (row_lead_id (row_of x)) e p
     = true.
Proof.
  intros Ht. destruct (truthy_some _ Ht) as (k & Hk & _).
  assert (H : is_seen (mark_seen d x) (row_lead_id (row_of x)) e p = true).
  { rewrite Hk. unfold mark_seen, insert_or_ignore. rewrite Ht. simpl.
    destruct (pk_conflict d (row_of x)) eqn:Hc.
    - apply pk_conflict_true in Hc as (r & k' & Hin & H1 & H2).
      rewrite Hk in H2. injection H2 as <-. eapply is_seen_by_id; eauto.
    - rewrite is_seen_app. apply orb_true_iff. right.
      eapply is_seen_by_id; [left; reflexivity | exact Hk]. }
  split; [exact H|].
  eapply is_seen_prefix; [apply mark_seen_prefix | exact H].
Qed.

Lemma marked_is_seen_witness :
  is_seen (mark_seen [] (LeadId "L9")) (Some "L9") None None = true
  /\ is_seen (mark_seen (mark_seen [] (LeadId "L9")) (LeadDict ann))
             (Some "L9") None None = true.
Proof.
  apply (marked_is_seen [] (LeadId "L9") (LeadDict ann) None None).
  reflexivity.
Defined.

Lemma omap_app_one (d : list row) (r : row) :
  omap row_lead_id (d ++ [r])
  = omap row_lead_id d ++ match row_lead_id r with
                          | Some k => [k]
                          | None => []
                          end.
Proof.
  rewrite omap_app. f_equal.
Qed.

Lemma in_omap_ids (d : list row) (k : string) :
  k ∈ omap row_lead_id d <-> exists r, In r d /\ row_lead_id r = Some k.
Proof.
  rewrite list_elem_of_omap. split; intros (r & Hin & H); exists r;
    (split; [apply list_elem_of_In; exact Hin | exact H]).
Qed.

(** [mark_seen] keeps the primary key unique and never stores an absent
    or empty id. *)
Lemma mark_seen_sound (d : list row) (x : lead_or_id) :
  pk_unique d -> ids_present d ->
  pk_unique (mark_seen d x) /\ ids_present (mark_seen d x).
Proof.
  intros Hu Hp. unfold mark_seen, insert_or_ignore.
  destruct (Py.truthy (row_lead_id (row_of x))) eqn:Ht; simpl; [|auto].
  destruct (pk_conflict d (row_of x)) eqn:Hc; [auto|].
  destruct (truthy_some _ Ht) as (k & Hk & _).
  split.
  - unfold pk_unique. rewrite omap_app_one, Hk.
    apply NoDup_app. split; [exact Hu|]. split; [|apply NoDup_singleton].
    intros k' Hin Hin'. apply list_elem_of_singleton in Hin' as ->.
    apply in_omap_ids in Hin as (r & Hr & Hid).
    assert (pk_conflict d (row_of x) = true); [|congruence].
    apply pk_conflict_true. eauto.
  - apply Forall_app. split; [exact Hp|]. apply Forall_singleton. exact Ht.
Qed.


(** X3: a lead marked by its bare id (the legacy form) leaves a row
    without email and phone: later lookups match it by that id only,
    never by an email or a phone. *)
Theorem legacy_mark_matches_by_id_only (d : list row) (s : string)
    (lid e p : option string) :
  Py.truthy (Some s) = true -> pk_conflict d (row_of (LeadId s)) = false ->
  is_seen (mark_seen d (LeadId s)) lid e p
  = is_seen d lid e p || Sql.holds (Sql.eq (Some s) lid).
Proof.
  intros Ht Hc. unfold mark_seen, insert_or_ignore.
  simpl row_of. simpl row_lead_id. rewrite Ht. simpl negb. cbv iota.
  change (Row (Some s) None None None None) with (row_of (LeadId s)).
  rewrite Hc, is_seen_app. f_equal.
  unfold is_seen, where_seen. simpl.
  destruct lid as [k|]; simpl; [|reflexivity].
  destruct (String.eqb s k); reflexivity.
Qed.

Lemma legacy_mark_matches_by_id_only_witness :
  is_seen (mark_seen [] (LeadId "L9")) (Some "L2") (Some "") (Some "")
  = is_seen [] (Some "L2") (Some "") (Some "")
    || Sql.holds (Sql.eq (Some "L9") (Some "L2")).
Proof.
  apply (legacy_mark_matches_by_id_only [] "L9"); reflexivity.
Defined.

(** ** Ingestion: what a run stores and emits *)

Lemma stored_rows_app a b : stored_rows (a ++ b) = stored_rows a ++ stored_rows b.
Proof. unfold stored_rows. rewrite List.filter_app, map_app. reflexivity. Qed.

Lemma mark_seen_stored_rows d n :
  seen d n = false -> mark_seen d (LeadDict n) = d ++ stored_rows [n].
Proof.
  intros Hs. unfold stored_rows. simpl.
  destruct (Py.truthy (lead_id n)) eqn:Ht; simpl.
  - apply mark_seen_new; assumption.
  - unfold mark_seen. simpl. rewrite Ht, app_nil_r. reflexivity.
Qed.

Lemma seen_app d t n : seen (d ++ t) n = seen d n || seen t n.
Proof. apply is_seen_app. Qed.

Lemma fresh_from_app d a b :
  fresh_from d a -> fresh_from (d ++ stored_rows a) b -> fresh_from d (a ++ b).
Proof.
  revert d. induction a as [|n a IH]; intros d Ha Hb; simpl in *.
  - rewrite app_nil_r in Hb. exact Hb.
  - destruct Ha as [Hn Ha]. split; [exact Hn|]. apply IH; [exact Ha|].
    change (n :: a) with ([n] ++ a) in Hb.
    rewrite stored_rows_app, app_assoc in Hb. exact Hb.
Qed.

(** Each new lead is unseen in the store the run started from. *)
Lemma fresh_from_unseen ls : forall d n,
  fresh_from d ls -> In n ls -> seen d n = false.
Proof.
  induction ls as [|m ls IH]; intros d n Hf Hin; [destruct Hin|].
  destruct Hf as [Hm Hf]. destruct Hin as [<-|Hin]; [exact Hm|].
  pose proof (IH _ _ Hf Hin) as H. rewrite seen_app in H.
  apply orb_false_iff in H as [H _]. exact H.
Qed.

(** A new lead matches no new lead before it that has an id. *)
Lemma fresh_from_distinct ls : forall d l1 a l2 b l3,
  fresh_from d ls -> ls = l1 ++ a :: l2 ++ b :: l3 ->
  seen (stored_rows [a]) b = false.
Proof.
  induction ls as [|m ls IH]; intros d l1 a l2 b l3 Hf Heq.
  - destruct l1; discriminate.
  - destruct Hf as [_ Hf]. destruct l1 as [|m' l1]; simpl in Heq.
    + injection Heq as -> ->.
      assert (Hin : In b (l2 ++ b :: l3)) by (apply in_or_app; right; left; reflexivity).
      pose proof (fresh_from_unseen _ _ _ Hf Hin) as H.
      rewrite seen_app in H. apply orb_false_iff in H as [_ H]. exact H.
    + injection Heq as -> ->. eapply IH; eauto.
Qed.

Section RunProperties.

Variable since_param : option string.
Variable offline_mode : bool.
Variable created_before_since : option string -> option bool.

Lemma skipped_eq raw :
  skipped since_param offline_mode created_before_since raw =
  match normalize_lead raw with
  | None => true
  | Some n =>
      Py.truthy since_param && offline_mode
      && match created_before_since (created_time n) with
         | Some true => true
         | _ => false
         end
  end.
Proof. reflexivity. Qed.

Local Abbreviation process_raw :=
  (process_raw since_param offline_mode created_before_since).
Local Abbreviation process_page :=
  (process_page since_param offline_mode created_before_since).
Local Abbreviation process_pages :=
  (process_pages since_param offline_mode created_before_since).
Local Abbreviation run := (run since_param offline_mode created_before_since).
Local Abbreviation passes_since :=
  (passes_since since_param offline_mode created_before_since).
Local Abbreviation skipped :=
  (skipped since_param offline_mode created_before_since).

(** One record either leaves the state alone or goes through [ingest]. *)
Lemma process_raw_cases st raw st' :
  process_raw st raw = Some st' ->
  st' = st
  \/ exists n, normalize_lead raw = Some n /\ passes_since n = true
               /\ st' = ingest st n.
Proof.
  rewrite process_raw_eq. destruct (normalize_lead raw) as [n|] eqn:Hn.
  - intros H. pose proof (passes_since_eq since_param offline_mode
                            created_before_since n) as Hp.
    destruct (Py.truthy since_param && offline_mode).
    + destruct (created_before_since (created_time n)) as [[|]|];
        [injection H as <-; auto | | discriminate].
      injection H as <-. right. exists n. auto.
    + injection H as <-. right. exists n. auto.
  - intros [= <-]. auto.
Qed.

(** What a page adds to the state. *)
Lemma process_page_added raws : forall st st' s,
  process_page st raws = (st', s) ->
  exists added,
    new_leads st' = new_leads st ++ added
    /\ db st' = db st ++ stored_rows added
    /\ fresh_from (db st) added
    /\ Forall (fun n => exists raw, In raw raws
                          /\ normalize_lead raw = Some n
                          /\ passes_since n = true) added.
Proof.
  induction raws as [|raw raws IH]; intros st st' s Hrun; simpl in Hrun.
  - injection Hrun as <- _. exists []. rewrite !app_nil_r.
    repeat split; constructor.
  - destruct (process_raw st raw) as [st1|] eqn:H1.
    + destruct (IH _ _ _ Hrun) as (added & Hn & Hd & Hf & Hall).
      assert (Hall' : Forall (fun n => exists raw0, In raw0 (raw :: raws)
                          /\ normalize_lead raw0 = Some n
                          /\ passes_since n = true) added).
      { eapply Forall_impl; [exact Hall|].
        intros n (raw0 & Hin & H). exists raw0. split; [right; exact Hin|exact H]. }
      apply process_raw_cases in H1 as [->|(n & Hnorm & Hp & ->)];
        [exists added; auto|].
      destruct (seen (db st) n) eqn:Hs.
      * rewrite (ingest_old st n Hs) in *. exists added. auto.
      * rewrite (ingest_new st n Hs) in *. simpl in *.
        rewrite (mark_seen_stored_rows _ _ Hs) in *.
        exists (n :: added). rewrite Hn, Hd.
        change (n :: added) with ([n] ++ added).
        rewrite stored_rows_app, !app_assoc.
        split; [reflexivity|]. split; [reflexivity|].
        split; [split; assumption|].
        constructor; [|exact Hall'].
        exists raw. split; [left; reflexivity|]. auto.
    + injection Hrun as <- _. exists []. rewrite !app_nil_r.
      repeat split; constructor.
Qed.

(** X4: whether a run completes or is cut short, the store it leaves is
    the store it started from followed by one row per new lead that has
    an id, in the order of ingestion; [fetch_all] reads them back so. *)
Theorem run_stores_new_leads (d : list row) (pages : list (list raw_lead)) :
  db (fst (run d pages))
  = d ++ stored_rows (new_leads (fst (run d pages)))
  /\ fetch_all (db (fst (run d pages))) None
     = fetch_all d None ++ stored_rows (new_leads (fst (run d pages))).
Proof.
  rewrite run_eq, process_pages_concat.
  destruct (process_page _ (concat pages)) as [st' s] eqn:Hrun.
  destruct (process_page_added _ _ _ _ Hrun) as (added & Hn & Hd & _).
  simpl in *. rewrite Hn, Hd. auto.
Qed.

(** X5: every new lead of a run is the normal form of a raw record of
    the source that passes the since filter, has an email or a phone,
    and matched no row of the store the run started from. *)
Theorem new_leads_come_from_source (d : list row)
    (pages : list (list raw_lead)) (n : flat_lead) :
  In n (new_leads (fst (run d pages))) ->
  (exists raw, In raw (concat pages) /\ normalize_lead raw = Some n)
  /\ passes_since n = true
  /\ Py.truthy (email n) || Py.truthy (phone n) = true
  /\ seen d n = false.
Proof.
  rewrite run_eq, process_pages_concat.
  destruct (process_page _ (concat pages)) as [st' s] eqn:Hrun.
  destruct (process_page_added _ _ _ _ Hrun) as (added & Hn & _ & Hf & Hall).
  simpl in *. subst. intros Hin.
  rewrite Forall_forall in Hall.
  destruct (Hall n (proj2 (list_elem_of_In _ _) Hin))
    as (raw & Hraw & Hnorm & Hp).
  split; [eauto|]. split; [exact Hp|]. split.
  - revert Hnorm. unfold normalize_lead.
    destruct (negb _ && negb _) eqn:E; [discriminate|].
    intros [= <-]. simpl.
    destruct (Py.truthy (dict_get _ "email")), (Py.truthy (derive_phone _));
      simpl in *; congruence.
  - eapply fresh_from_unseen; eauto.
Qed.

(** X6: within one run no new lead matches an earlier new lead that has
    an id, be it on the id, the email or the phone: the leads written
    out never hold two records of one stored identity. *)
Theorem new_leads_pairwise_distinct (d : list row)
    (pages : list (list raw_lead)) (l1 l2 l3 : list flat_lead)
    (a b : flat_lead) :
  new_leads (fst (run d pages)) = l1 ++ a :: l2 ++ b :: l3 ->
  Py.truthy (lead_id a) = true ->
  seen [row_of (LeadDict a)] b = false.
Proof.
  rewrite run_eq, process_pages_concat.
  destruct (process_page _ (concat pages)) as [st' s] eqn:Hrun.
  destruct (process_page_added _ _ _ _ Hrun) as (added & Hn & _ & Hf & _).
  simpl in *. subst. intros Heq Ht.
  pose proof (fresh_from_distinct _ _ _ _ _ _ _ Hf Heq) as H.
  unfold stored_rows in H. simpl in H. rewrite Ht in H. exact H.
Qed.

(** X7: records the loop passes over (rejected by the normaliser, or
    older than the cutoff when the since filter is on) have no effect:
    the run is the same with them taken out of the pages. *)
Theorem skipped_records_do_not_matter (d : list row)
    (pages : list (list raw_lead)) :
  run d pages
  = run d (map (List.filter (fun raw => negb (skipped raw))) pages).
Proof.
  assert (Hpage : forall raws st,
            process_page st raws
            = process_page st (List.filter (fun raw => negb (skipped raw)) raws)).
  { induction raws as [|raw raws IH]; intros st; simpl; [reflexivity|].
    destruct (skipped raw) eqn:Hs; simpl.
    - assert (process_raw st raw = Some st) as ->; [|apply IH].
      rewrite process_raw_eq. rewrite skipped_eq in Hs.
      destruct (normalize_lead raw) as [n|]; [|reflexivity].
      destruct (Py.truthy since_param && offline_mode); [|discriminate].
      destruct (created_before_since (created_time n)) as [[|]|];
        [reflexivity | discriminate | discriminate].
    - destruct (process_raw st raw); [apply IH | reflexivity]. }
  rewrite !run_eq. generalize {| db := d; new_leads := [] |}.
  induction pages as [|p pages IH]; intros st; simpl; [reflexivity|].
  rewrite <- Hpage. destruct (process_page st p) as [st' [|]];
    [apply IH | reflexivity].
Qed.

(** X8: the split of the source into pages has no effect: a run over
    the pages is the run over their records as one page. *)
Theorem page_boundaries_do_not_matter (d : list row)
    (pages : list (list raw_lead)) :
  run d pages = run d [concat pages].
Proof.
  rewrite !run_eq, !process_pages_concat. simpl. rewrite app_nil_r.
  reflexivity.
Qed.


(** A run keeps the store sound, whether it completes or not. *)
Lemma run_sound (d : list row) (pages : list (list raw_lead)) :
  pk_unique d -> ids_present d ->
  pk_unique (db (fst (run d pages))) /\ ids_present (db (fst (run d pages))).
Proof.
  assert (Hstep : forall st raw st',
            process_raw st raw = Some st' ->
            pk_unique (db st) /\ ids_present (db st) ->
            pk_unique (db st') /\ ids_present (db st')).
  { intros st raw st' H Hok.
    apply process_raw_cases in H as [->|(n & _ & _ & ->)]; [exact Hok|].
    unfold ingest. destruct (is_seen _ _ _ _); [exact Hok|]. simpl.
    apply mark_seen_sound; apply Hok. }
  intros Hu Hp. rewrite run_eq, process_pages_concat.
  assert (Hok : pk_unique (db {| db := d; new_leads := [] |})
                /\ ids_present (db {| db := d; new_leads := [] |})) by auto.
  revert Hok. generalize {| db := d; new_leads := [] |}.
  induction (concat pages) as [|raw raws IH]; intros st Hok; simpl;
    [exact Hok|].
  destruct (process_raw st raw) as [st1|] eqn:H1; [|exact Hok].
  apply IH. eapply Hstep; eauto.
Qed.

End RunProperties.

Lemma new_leads_come_from_source_witness :
  (exists raw, In raw (concat [[scenario_raw]])
               /\ normalize_lead raw = Some ann)
  /\ passes_since None false (fun _ => None) ann = true
  /\ Py.truthy (email ann) || Py.truthy (phone ann) = true
  /\ seen [] ann = false.
Proof.
  apply (new_leads_come_from_source None false (fun _ => None)
           [] [[scenario_raw]] ann).
  left. reflexivity.
Defined.

Lemma new_leads_pairwise_distinct_witness :
  seen [row_of (LeadDict ann)] phone_only_flat = false.
Proof.
  apply (new_leads_pairwise_distinct None false (fun _ => None)
           [] [[scenario_raw; phone_only_raw]] [] [] [] ann phone_only_flat);
    reflexivity.
Defined.


(** X10: the store stays sound: from a table with a unique primary key
    and no absent or empty id (an empty table for one), every
    [mark_seen] and every run of the pipeline, completed or cut short,
    leaves a table with at most one row per id and only usable ids. *)
Theorem store_stays_sound (d : list row) :
  pk_unique d -> ids_present d ->
  (forall x, pk_unique (mark_seen d x) /\ ids_present (mark_seen d x))
  /\ (forall since_param offline_mode created_before_since pages,
        pk_unique (db (fst (run since_param offline_mode
                                created_before_since d pages)))
        /\ ids_present (db (fst (run since_param offline_mode
                                     created_before_since d pages)))).
Proof.
  intros Hu Hp. split.
  - intros x. apply mark_seen_sound; assumption.
  - intros since_param offline_mode created_before_since pages.
    apply run_sound; assumption.
Qed.

Lemma store_stays_sound_witness :
  pk_unique (db (fst (run None false (fun _ => None) []
                          [[scenario_raw; phone_only_raw]])))
  /\ ids_present (db (fst (run None false (fun _ => None) []
                               [[scenario_raw; phone_only_raw]]))).
Proof.
  apply (store_stays_sound []).
  - apply NoDup_nil_2.
  - apply Forall_nil_2.
Defined.

(** ** Paged fetcher: requests, delays, causality *)

Section FetchMore.

Variable access_token form_id api_version : string.
Variable limit : Z.
Variable since : option string.
Variable max_retries : Z.
Variable py_int : string -> option Z.

Local Abbreviation fetch_loop :=
  (fetch_loop form_id api_version max_retries py_int).
Local Abbreviation fetch_leads :=
  (fetch_leads access_token form_id api_version limit since max_retries
     py_int).



(** X13: a 429 whose [Retry-After] reads as a negative integer ends the
    fetch at once, whatever the retry count: the sleep raises an error
    that the retry handler does not catch. *)
Theorem negative_retry_after_is_fatal (url : string) (ps : option params)
    (attempt d : Z) (h : string) (body : page_body) (rest : list reply) :
  Py.truthy (Some h) = true -> py_int h = Some d -> d < 0 ->
  outcome (fetch_loop url ps attempt (Reply 429 (Some h) body :: rest))
  = ([], Raised)
  /\ sleeps (fst (fetch_loop url ps attempt
                    (Reply 429 (Some h) body :: rest))) = [].
Proof.
  intros Ht Hint Hneg. rewrite fetch_loop_cons. cbv zeta.
  change (500 <=? 429) with false. change (429 =? 429) with true. cbv iota.
  unfold retry_delay. rewrite Ht, Hint. unfold sleep.
  destruct (Z.ltb_spec d 0); [|lia]. split; reflexivity.
Qed.

(** X14: with [max_retries] zero or negative nothing is retried: the
    first failed attempt ends the fetch with a fatal error. *)
Theorem no_retries_without_budget (r : reply) (rest : list reply) :
  max_retries <= 0 -> failing r = true ->
  outcome (fetch_leads (r :: rest)) = ([], Raised)
  /\ length (gets (fst (fetch_leads (r :: rest)))) = 1%nat.
Proof.
  intros Hm Hf. rewrite fetch_leads_eq. split.
  - apply failure_at_bound; [lia | exact Hf].
  - rewrite fetch_loop_cons. cbv zeta.
    assert (Hlt : (0 <? max_retries) = false) by (apply Z.ltb_ge; lia).
    assert (Hlt1 : (0 + 1 <? max_retries) = false) by (apply Z.ltb_ge; lia).
    assert (Hgt : (max_retries <? 0 + 1) = true) by (apply Z.ltb_lt; lia).
    destruct r as [|status ra body]; [rewrite Hlt; reflexivity|].
    destruct (500 <=? status) eqn:H5; [rewrite Hlt; reflexivity|].
    destruct (Z.eqb_spec status 429) as [->|Hne].
    + rewrite Hgt, Hlt1. change (raises_for_status 429) with true. cbv iota.
      destruct (sleep_spec (retry_delay py_int ra 0) ([], Raised))
        as [[_ ->]|[_ ->]]; reflexivity.
    + unfold failing, is_429, transient in Hf. rewrite H5 in Hf.
      destruct (Z.eqb_spec status 429); [contradiction|].
      simpl in Hf. rewrite Hf, Hlt. reflexivity.
Qed.

(** Once the parameters are dropped no request carries them. *)
Lemma bare_from_none script : forall url attempt,
  Forall bare_request (fst (fetch_loop url None attempt script)).
Proof.
  induction script as [|r rest IH]; intros url a; [constructor|].
  rewrite fetch_loop_cons. cbv zeta.
  assert (Hif : (if String.eqb url (base_url form_id api_version)
                 then @None params else None) = None)
    by (destruct (String.eqb _ _); reflexivity).
  rewrite Hif.
  assert (Hsleep : forall delay k,
            Forall bare_request (fst k) ->
            Forall bare_request (fst (sleep delay k))).
  { intros delay k Hk. unfold sleep. destruct (delay <? 0); [constructor|].
    constructor; [exact I | exact Hk]. }
  assert (Hexc : forall a',
            Forall bare_request
              (fst (if a' <? max_retries
                    then sleep (2 ^ a') (fetch_loop url None (a' + 1) rest)
                    else ([], Raised)))).
  { intros a'. destruct (a' <? max_retries); [|constructor].
    apply Hsleep, IH. }
  constructor; [reflexivity|].
  destruct r as [|status ra body]; [apply Hexc|].
  destruct (500 <=? status); [apply Hexc|].
  destruct (status =? 429).
  - apply Hsleep. destruct (max_retries <? a + 1); [|apply IH].
    destruct (raises_for_status status); [apply Hexc | apply IH].
  - destruct (raises_for_status status); [apply Hexc|].
    constructor; [exact I|].
    destruct (next_url body); [apply IH | constructor].
Qed.

(** X15: the query parameters, access token included, go with the
    requests of the first page only: after the first batch is yielded
    every request is made with the next-page URL alone. *)
Theorem params_only_for_first_page (script : list reply)
    (before after : list event) (leads : list raw_lead) :
  fst (fetch_leads script) = before ++ Yield leads :: after ->
  yields before = [] ->
  Forall bare_request after.
Proof.
  rewrite fetch_leads_eq.
  generalize (base_url form_id api_version)
             (Some (initial_params access_token limit since)) 0.
  revert before. induction script as [|r rest IH];
    intros before url ps a Heq Hnone.
  - destruct before; discriminate.
  - rewrite fetch_loop_cons in Heq. cbv zeta in Heq.
    destruct before as [|e before]; [discriminate|].
    simpl in Heq. injection Heq as <- Heq. simpl in Hnone.
    assert (Hsleep : forall bf delay k,
              fst (sleep delay k) = bf ++ Yield leads :: after ->
              yields bf = [] ->
              exists bf', fst k = bf' ++ Yield leads :: after
                          /\ yields bf' = []).
    { intros bf delay k. unfold sleep. destruct (delay <? 0).
      - intros H. destruct bf; discriminate.
      - destruct bf as [|e bf']; [discriminate|].
        intros [= <- H] Hn. eauto. }
    assert (Hexc : forall a',
              fst (if a' <? max_retries
                   then sleep (2 ^ a') (fetch_loop url ps (a' + 1) rest)
                   else ([], Raised))
              = before ++ Yield leads :: after ->
              Forall bare_request after).
    { intros a'. destruct (a' <? max_retries).
      - intros H. apply Hsleep in H as (bf' & H & Hn); [|exact Hnone].
        eapply IH; eauto.
      - intros H. destruct before; discriminate. }
    destruct r as [|status ra body]; [eapply Hexc; eauto|].
    destruct (500 <=? status); [eapply Hexc; eauto|].
    destruct (status =? 429).
    + apply Hsleep in Heq as (bf' & Heq & Hn); [|exact Hnone].
      destruct (max_retries <? a + 1); [|eapply IH; eauto].
      destruct (raises_for_status status); [|eapply IH; eauto].
      destruct (a + 1 <? max_retries).
      * apply Hsleep in Heq as (bf'' & Heq & Hn'); [|exact Hn].
        eapply IH; eauto.
      * destruct bf'; discriminate.
    + destruct (raises_for_status status); [eapply Hexc; eauto|].
      destruct before as [|e before].
      * simpl in Heq. injection Heq as _ <-.
        destruct (next_url body); [apply bare_from_none | constructor].
      * simpl in Heq. injection Heq as <- _. simpl in Hnone. discriminate.
Qed.

(** X16: a fetch that has ended, by returning or by a fatal error, asks
    for nothing more: replies the server would give afterwards change
    neither the trace nor the end. *)
Theorem ended_fetch_ignores_later_replies (script later : list reply) :
  snd (fetch_leads script) <> Waiting ->
  fetch_leads (script ++ later) = fetch_leads script.
Proof.
  rewrite !fetch_leads_eq.
  generalize (base_url form_id api_version)
             (Some (initial_params access_token limit since)) 0.
  induction script as [|r rest IH]; intros url ps a Hend;
    [contradiction Hend; reflexivity|].
  simpl app. rewrite !fetch_loop_cons in *. cbv zeta in *.
  assert (Hsleep : forall delay k k',
            (snd k <> Waiting -> k' = k) ->
            snd (sleep delay k) <> Waiting -> sleep delay k' = sleep delay k).
  { intros delay k k' Hk. unfold sleep. destruct (delay <? 0); [reflexivity|].
    intros H. rewrite Hk; [reflexivity | exact H]. }
  assert (Hexc : forall a',
            snd (if a' <? max_retries
                 then sleep (2 ^ a') (fetch_loop url ps (a' + 1) rest)
                 else ([], Raised)) <> Waiting ->
            (if a' <? max_retries
             then sleep (2 ^ a') (fetch_loop url ps (a' + 1) (rest ++ later))
             else ([], Raised))
            = (if a' <? max_retries
               then sleep (2 ^ a') (fetch_loop url ps (a' + 1) rest)
               else ([], Raised))).
  { intros a'. destruct (a' <? max_retries); [|reflexivity].
    apply Hsleep, IH. }
  simpl snd in Hend. f_equal.
  destruct r as [|status ra body]; [apply Hexc, Hend|].
  destruct (500 <=? status); [apply Hexc, Hend|].
  destruct (status =? 429).
  - revert Hend. apply Hsleep.
    destruct (max_retries <? a + 1); [|apply IH].
    destruct (raises_for_status status); [apply Hexc | apply IH].
  - destruct (raises_for_status status); [apply Hexc, Hend|].
    simpl snd in Hend. f_equal.
    destruct (next_url body); [apply IH, Hend | reflexivity].
Qed.

End FetchMore.



Lemma negative_retry_after_is_fatal_witness :
  outcome (fetch_loop "form" "16.0" 3 minus_one_int "u" None 0
             (Reply 429 (Some "-1") blank_body :: [served (last_body [])]))
  = ([], Raised)
  /\ sleeps (fst (fetch_loop "form" "16.0" 3 minus_one_int "u" None 0
                    (Reply 429 (Some "-1") blank_body
                       :: [served (last_body [])]))) = [].
Proof.
  apply (negative_retry_after_is_fatal "form" "16.0" 3 minus_one_int "u" None
           0 (-1) "-1" blank_body [served (last_body [])]);
    [reflexivity | reflexivity | lia].
Defined.

Lemma no_retries_without_budget_witness :
  outcome (fetch_leads "token" "form" "16.0" 25 None (-2) no_int
             (Reply 503 None blank_body :: [served (last_body [])]))
  = ([], Raised)
  /\ length (gets (fst (fetch_leads "token" "form" "16.0" 25 None (-2) no_int
                          (Reply 503 None blank_body
                             :: [served (last_body [])])))) = 1%nat.
Proof.
  apply (no_retries_without_budget "token" "form" "16.0" 25 None (-2) no_int
           (Reply 503 None blank_body) [served (last_body [])]);
    [lia | reflexivity].
Defined.

Lemma params_only_for_first_page_witness :
  Forall bare_request
    [Get "https://graph.facebook.com/next" None; Yield [phone_only_raw]].
Proof.
  apply (params_only_for_first_page "token" "form" "16.0" 25 None 3 no_int
           (map served two_pages)
           [Get (base_url "form" "16.0")
                (Some (initial_params "token" 25 None))]
           [Get "https://graph.facebook.com/next" None; Yield [phone_only_raw]]
           [scenario_raw]);
    reflexivity.
Defined.

Lemma ended_fetch_ignores_later_replies_witness :
  fetch_leads "token" "form" "16.0" 25 None 3 no_int
    (map served two_pages ++ [NoReply])
  = fetch_leads "token" "form" "16.0" 25 None 3 no_int (map served two_pages).
Proof.
  apply (ended_fetch_ignores_later_replies "token" "form" "16.0" 25 None 3
           no_int (map served two_pages) [NoReply]).
  discriminate.
Defined.

(** ** [main]: fetch, ingestion and output together *)

Section MainModesProperties.

Variable access_token form_id api_version : string.
Variable limit : Z.
Variable max_retries : Z.
Variable py_int : string -> option Z.
Variable since_param : option string.
Variable created_before_since : option string -> option bool.
Variable output_format : string.

Lemma main_live_eq d script :
  main_live access_token form_id api_version limit max_retries py_int
    since_param created_before_since output_format d script
  = let fetched :=
      fetch_leads access_token form_id api_version limit since_param
        max_retries py_int script in
    match process_pages since_param false created_before_since
            {| db := d; new_leads := [] |} (yields (fst fetched)) with
    | (st, Aborted) => (db st, Crashed)
    | (st, Completed) =>
        (db st,
         match snd fetched with
         | StopIteration =>
             Written (write_output (new_leads st) output_format)
         | Raised => Crashed
         | Waiting => Unfinished
         end)
    end.
Proof. reflexivity. Qed.

Local Abbreviation fetch_leads :=
  (fetch_leads access_token form_id api_version limit since_param
     max_retries py_int).
Local Abbreviation main_live :=
  (main_live access_token form_id api_version limit max_retries py_int
     since_param created_before_since output_format).
Local Abbreviation run := (run since_param false created_before_since).

(** In live mode the loop over the pages raises nothing. *)
Lemma live_pages_complete st pages :
  snd (process_pages since_param false created_before_since st pages)
  = Completed.
Proof.
  rewrite process_pages_concat. revert st.
  induction (concat pages) as [|raw raws IH]; intros st; simpl; [reflexivity|].
  destruct (process_raw since_param false created_before_since st raw)
    as [st1|] eqn:H1; [apply IH|].
  rewrite process_raw_eq, andb_false_r in H1.
  destruct (normalize_lead raw); discriminate.
Qed.

(** Live mode in terms of what the fetch yields and how it ends. *)
Lemma main_live_outcome d script batches e :
  outcome (fetch_leads script) = (batches, e) ->
  main_live d script
  = (db (fst (run d batches)),
     match e with
     | StopIteration =>
         Written (write_output (new_leads (fst (run d batches)))
                    output_format)
     | Raised => Crashed
     | Waiting => Unfinished
     end).
Proof.
  intros [= Hb He]. rewrite main_live_eq. cbv zeta. rewrite Hb, He, run_eq.
  pose proof (live_pages_complete {| db := d; new_leads := [] |} batches) as H.
  destruct (process_pages _ _ _ _ batches) as [st s]. simpl in H. subst s.
  reflexivity.
Qed.

Lemma fetch_of_chain bodies extra :
  chained bodies = true ->
  outcome (fetch_leads (map served bodies ++ extra))
  = (map leads_of bodies, StopIteration).
Proof.
  intros Hc. rewrite fetch_leads_eq.
  destruct (chain_fetched form_id api_version max_retries py_int bodies extra
              (base_url form_id api_version)
              (Some (initial_params access_token limit since_param)) Hc)
    as (H1 & H2 & _).
  unfold outcome in *. simpl in H1. rewrite H1, H2. reflexivity.
Qed.

(** X17: when the fetch fails for good on a page ([max_retries + 1]
    failed attempts in a row), [main] ends by the exception without
    writing a file, and the store keeps the rows of the leads ingested
    from the pages served before: it is the store of a run over those
    pages. *)
Theorem fatal_fetch_keeps_earlier_pages (d : list row)
    (bodies : list page_body) (fs rest : list reply) :
  0 <= max_retries -> forallb has_next bodies = true ->
  forallb failing fs = true -> Z.of_nat (length fs) = max_retries + 1 ->
  main_live d (map served bodies ++ fs ++ rest)
  = (db (fst (run d (map leads_of bodies))), Crashed).
Proof.
  intros Hm Hl Hf Hlen.
  rewrite (main_live_outcome d _ (map leads_of bodies) Raised); [reflexivity|].
  rewrite fetch_leads_eq.
  destruct (linked_pages_fetched form_id api_version max_retries py_int
              bodies (fs ++ rest) (base_url form_id api_version)
              (Some (initial_params access_token limit since_param)) Hl)
    as (url & ps & ->).
  rewrite retries_exhausted; [|exact Hf | | lia].
  - simpl. rewrite app_nil_r. reflexivity.
  - intros ->. simpl in Hlen. lia.
Qed.

(** X18: over a source of chained pages served at the first request,
    [main] ends by writing the output, leaves the store of a run over
    the batches of these pages, and writes a file exactly when that run
    has new leads: the file then holds them all, in ingestion order. *)
Theorem live_run_writes_new_leads (d : list row) (bodies : list page_body)
    (extra : list reply) :
  chained bodies = true ->
  main_live d (map served bodies ++ extra)
  = (db (fst (run d (map leads_of bodies))),
     Written (write_output (new_leads (fst (run d (map leads_of bodies))))
                output_format))
  /\ (write_output (new_leads (fst (run d (map leads_of bodies))))
        output_format = None
      <-> new_leads (fst (run d (map leads_of bodies))) = [])
  /\ (forall file,
        write_output (new_leads (fst (run d (map leads_of bodies))))
          output_format = Some file ->
        match file with
        | NewLeadsJson leads | NewLeadsCsv leads =>
            leads = new_leads (fst (run d (map leads_of bodies)))
        end).
Proof.
  intros Hc. split; [|split].
  - apply (main_live_outcome d _ (map leads_of bodies) StopIteration).
    apply fetch_of_chain. exact Hc.
  - unfold write_output. destruct (new_leads _); split;
      try discriminate; reflexivity.
  - intros file. unfold write_output.
    destruct (new_leads _) as [|n ls]; [discriminate|].
    destruct (String.eqb output_format "json"); intros [= <-]; reflexivity.
Qed.

(** X19: when every raw record of such a source has a usable id, running
    [main] again against the store the first run left writes no file
    and leaves the store as it is. *)
Theorem second_live_run_writes_nothing (d : list row)
    (bodies : list page_body) (extra : list reply) :
  chained bodies = true ->
  forallb (fun raw => Py.truthy (raw_id raw))
          (concat (map leads_of bodies)) = true ->
  main_live (fst (main_live d (map served bodies ++ extra)))
            (map served bodies ++ extra)
  = (fst (main_live d (map served bodies ++ extra)), Written None).
Proof.
  intros Hc Hids.
  pose proof (fetch_of_chain bodies extra Hc) as Hf.
  rewrite !(main_live_outcome _ _ _ _ Hf). simpl fst.
  rewrite !run_eq, !process_pages_concat.
  destruct (process_page since_param false created_before_since
              {| db := d; new_leads := [] |} (concat (map leads_of bodies)))
    as [st1 s1] eqn:Hrun. simpl fst.
  rewrite (process_page_settled since_param false created_before_since
             _ _ _ _ {| db := db st1; new_leads := [] |} Hids Hrun);
    [reflexivity | reflexivity].
Qed.

End MainModesProperties.

Lemma fatal_fetch_keeps_earlier_pages_witness :
  main_live "token" "form" "16.0" 25 1 no_int None (fun _ => None) "json" []
    (map served [linked_body [scenario_raw] "https://next"]
       ++ [Reply 500 None blank_body; NoReply] ++ [])
  = (db (fst (run None false (fun _ => None) []
                  (map leads_of [linked_body [scenario_raw] "https://next"]))),
     Crashed).
Proof.
  apply (fatal_fetch_keeps_earlier_pages "token" "form" "16.0" 25 1 no_int
           None (fun _ => None) "json" []
           [linked_body [scenario_raw] "https://next"]
           [Reply 500 None blank_body; NoReply] []);
    [lia | reflexivity | reflexivity | reflexivity].
Defined.

Lemma live_run_writes_new_leads_witness :
  main_live "token" "form" "16.0" 25 3 no_int None (fun _ => None) "csv" []
    (map served two_pages ++ [])
  = (db (fst (run None false (fun _ => None) [] (map leads_of two_pages))),
     Written (write_output
                (new_leads (fst (run None false (fun _ => None) []
                                     (map leads_of two_pages))))
                "csv")).
Proof.
  apply (live_run_writes_new_leads "token" "form" "16.0" 25 3 no_int
           None (fun _ => None) "csv" [] two_pages []).
  reflexivity.
Defined.

Lemma second_live_run_writes_nothing_witness :
  main_live "token" "form" "16.0" 25 3 no_int None (fun _ => None) "json"
    (fst (main_live "token" "form" "16.0" 25 3 no_int None (fun _ => None)
            "json" [] (map served two_pages ++ [])))
    (map served two_pages ++ [])
  = (fst (main_live "token" "form" "16.0" 25 3 no_int None (fun _ => None)
            "json" [] (map served two_pages ++ [])),
     Written None).
Proof.
  apply (second_live_run_writes_nothing "token" "form" "16.0" 25 3 no_int
           None (fun _ => None) "json" [] two_pages []);
    reflexivity.
Defined.

(** ** Normaliser: flattening and the derived name *)

Lemma add_field_lookup m it k :
  k <> "" ->
  add_field m it !! k
  = if named k it then Some (first_value it) else m !! k.
Proof.
  intros Hk. unfold add_field, named.
  destruct (item_name it) as [n|] eqn:Hn; [|reflexivity].
  destruct (String.eqb_spec n k) as [->|Hne].
  - simpl. destruct (String.eqb_spec k ""); [contradiction|]. simpl.
    apply lookup_insert_eq.
  - destruct (Py.truthy (Some n)); [|reflexivity].
    apply lookup_insert_ne. exact Hne.
Qed.

Lemma foldl_add_field_lookup items k : forall m,
  k <> "" ->
  foldl add_field m items !! k
  = match last_named k items with
    | Some it => Some (first_value it)
    | None => m !! k
    end.
Proof.
  induction items as [|it items IH]; intros m Hk; simpl; [reflexivity|].
  rewrite IH by exact Hk.
  destruct (last_named k items); [reflexivity|].
  rewrite add_field_lookup by exact Hk.
  destruct (named k it); reflexivity.
Qed.

Lemma add_field_empty_name m it : add_field m it !! "" = m !! "".
Proof.
  unfold add_field. destruct (item_name it) as [n|]; [|reflexivity].
  simpl. destruct (String.eqb_spec n "") as [->|Hne]; [reflexivity|].
  simpl. apply lookup_insert_ne. exact Hne.
Qed.

Lemma field_last_named raw k :
  k <> "" ->
  field raw k
  = match last_named k (default [] (raw_field_data raw)) with
    | Some it => first_value it
    | None => None
    end.
Proof.
  intros Hk. unfold field, dict_get, fields_of.
  rewrite foldl_add_field_lookup by exact Hk. rewrite lookup_empty.
  destruct (last_named _ _); reflexivity.
Qed.

(** X20: flattening keeps, for each field name, the first value of the
    last entry of that name: a later entry overwrites an earlier one, the
    other values of an entry are dropped, and an entry without values
    gives None.  Entries with an empty name are left out. *)
Theorem field_is_last_entry (raw : raw_lead) (k : string) :
  field raw k
  = if String.eqb k "" then None
    else match last_named k (default [] (raw_field_data raw)) with
         | Some it => first_value it
         | None => None
         end.
Proof.
  destruct (String.eqb_spec k "") as [->|Hk].
  - unfold field, dict_get, fields_of.
    assert (H : forall items m, foldl add_field m items !! "" = m !! "").
    { induction items as [|it items IH]; intros m; simpl; [reflexivity|].
      rewrite IH. apply add_field_empty_name. }
    rewrite H, lookup_empty. reflexivity.
  - apply field_last_named. exact Hk.
Qed.

Lemma last_named_filter k (p : field_item -> bool) items :
  (forall it, named k it = true -> p it = true) ->
  last_named k (List.filter p items) = last_named k items.
Proof.
  intros Hp. induction items as [|it items IH]; simpl; [reflexivity|].
  destruct (p it) eqn:Hpit; simpl; rewrite IH; [reflexivity|].
  destruct (last_named k items); [reflexivity|].
  destruct (named k it) eqn:Hn; [|reflexivity].
  rewrite (Hp it Hn) in Hpit. discriminate.
Qed.

Lemma normalize_lead_fields raw1 raw2 :
  raw_id raw1 = raw_id raw2 ->
  raw_created_time raw1 = raw_created_time raw2 ->
  Forall (fun k => field raw1 k = field raw2 k) known_names ->
  normalize_lead raw1 = normalize_lead raw2.
Proof.
  intros Hid Hct Hf.
  repeat (apply Forall_cons_1 in Hf as [? Hf]).
  unfold normalize_lead, derive_name, derive_phone.
  repeat match goal with
         | H : field raw1 ?k = field raw2 ?k |- _ =>
             unfold field in H; rewrite H; clear H
         end.
  rewrite Hid, Hct. reflexivity.
Qed.

(** X21: entries of [field_data] under other names than the seven the
    normaliser reads have no effect on its result. *)
Theorem unknown_fields_are_ignored (raw : raw_lead) :
  normalize_lead (pruned raw) = normalize_lead raw.
Proof.
  apply normalize_lead_fields; [reflexivity | reflexivity |].
  apply Forall_forall. intros k Hk.
  assert (Hne : k <> "").
  { intros ->. unfold known_names in Hk.
    repeat (apply elem_of_cons in Hk as [Hk|Hk]; [discriminate|]).
    inversion Hk. }
  rewrite !field_last_named by exact Hne. simpl.
  rewrite last_named_filter; [reflexivity|].
  intros it Hn. unfold known_field. apply existsb_exists.
  exists k. split; [apply list_elem_of_In; exact Hk | exact Hn].
Qed.

Lemma lstrip_head s :
  Py.lstrip s = ""
  \/ exists c r, Py.lstrip s = String c r /\ Py.isspace c = false.
Proof.
  induction s as [|c s IH]; simpl; [auto|].
  destruct (Py.isspace c) eqn:Hc; [exact IH|]. right. eauto.
Qed.

Lemma rstrip_idem s : Py.rstrip (Py.rstrip s) = Py.rstrip s.
Proof.
  induction s as [|c s IH]; simpl; [reflexivity|].
  destruct (Py.rstrip s) as [|c' kept] eqn:Hr.
  - destruct (Py.isspace c) eqn:Hc; simpl; [reflexivity|].
    rewrite Hc. reflexivity.
  - simpl in *. rewrite IH. reflexivity.
Qed.

Lemma rstrip_head c r :
  Py.isspace c = false -> exists r', Py.rstrip (String c r) = String c r'.
Proof.
  intros Hc. simpl. destruct (Py.rstrip r); [rewrite Hc|]; eauto.
Qed.

Lemma strip_idem s : Py.strip (Py.strip s) = Py.strip s.
Proof.
  unfold Py.strip.
  destruct (lstrip_head s) as [->|(c & r & -> & Hc)]; [reflexivity|].
  destruct (rstrip_head c r Hc) as (r' & Hr). rewrite Hr.
  simpl Py.lstrip. rewrite Hc, <- Hr. apply rstrip_idem.
Qed.



Example field_is_last_entry_example :
  field repeated_email_raw "email" = Some "new@x.com"
  /\ normalize_lead repeated_email_raw
     = Some {| lead_id := Some "L3"; name := None;
               email := Some "new@x.com"; phone := None;
               created_time := None |}.
Proof. split; vm_compute; reflexivity. Qed.

(** ** The fallback [load_dotenv] *)

Section DotenvProperties.

Variable refused : string -> string -> bool.

Lemma load_lines_cons env line rest :
  load_lines refused env (line :: rest)
  = match parse_line line with
    | None => load_lines refused env rest
    | Some (key, value) =>
        match setdefault refused env key value with
        | Some env' => load_lines refused env' rest
        | None => None
        end
    end.
Proof. reflexivity. Qed.

Lemma setdefault_lookup env key value env' k :
  setdefault refused env key value = Some env' ->
  env' !! k
  = match env !! k with
    | Some v => Some v
    | None => if String.eqb key k then Some value else None
    end.
Proof.
  unfold setdefault. destruct (env !! key) as [v|] eqn:Hkey.
  - intros [= <-]. destruct (env !! k) eqn:Hk; [reflexivity|].
    destruct (String.eqb_spec key k); [congruence | reflexivity].
  - destruct (refused key value); [discriminate|]. intros [= <-].
    destruct (String.eqb_spec key k) as [->|Hne].
    + rewrite lookup_insert_eq, Hkey. reflexivity.
    + rewrite lookup_insert_ne by exact Hne.
      destruct (env !! k); reflexivity.
Qed.

(** The value of a variable after the loop over the lines. *)
Lemma load_lines_lookup (lines : list string) (k : string) : forall env env',
  load_lines refused env lines = Some env' ->
  env' !! k
  = match env !! k with
    | Some v => Some v
    | None => first_binding k lines
    end.
Proof.
  induction lines as [|line rest IH]; intros env env'.
  - intros [= <-]. simpl. destruct (env !! k); reflexivity.
  - rewrite load_lines_cons. simpl first_binding.
    destruct (parse_line line) as [[key value]|]; [|apply IH].
    destruct (setdefault refused env key value) as [env1|] eqn:Hset;
      [|discriminate].
    intros H. rewrite (IH _ _ H), (setdefault_lookup _ _ _ _ k Hset).
    destruct (env !! k); [reflexivity|].
    destruct (String.eqb key k); reflexivity.
Qed.

(** X23: after a load that succeeds, a variable that was set before
    keeps its value, and a variable that was not has the value of the
    first line of the file that sets it, if any: the environment wins
    over the file, and the first setting in the file over later ones.
    Without a file nothing is set. *)
Theorem load_dotenv_result (env env' : gmap string string)
    (file : option (list string)) (k : string) :
  load_dotenv refused env file = Some env' ->
  env' !! k
  = match env !! k with
    | Some v => Some v
    | None => first_binding k (default [] file)
    end.
Proof.
  destruct file as [lines|]; simpl.
  - apply load_lines_lookup.
  - intros [= <-]. destruct (env !! k); reflexivity.
Qed.

Lemma load_lines_settled lines : forall env env' env'',
  load_lines refused env lines = Some env' ->
  (forall k, is_Some (env' !! k) -> is_Some (env'' !! k)) ->
  load_lines refused env'' lines = Some env''.
Proof.
  induction lines as [|line rest IH]; intros env env' env'' Hload Hsub;
    [reflexivity|].
  rewrite load_lines_cons in *.
  destruct (parse_line line) as [[key value]|]; [|eapply IH; eauto].
  destruct (setdefault refused env key value) as [env1|] eqn:Hset;
    [|discriminate].
  assert (Hkey : is_Some (env'' !! key)).
  { apply Hsub.
    pose proof (load_lines_lookup rest key env1 env' Hload) as H.
    pose proof (setdefault_lookup _ _ _ _ key Hset) as H1.
    rewrite String.eqb_refl in H1.
    rewrite H. destruct (env1 !! key) eqn:E; [eauto|].
    destruct (env !! key); discriminate. }
  destruct Hkey as [v Hv]. unfold setdefault. rewrite Hv.
  eapply IH; eauto.
Qed.

(** X24: loading is idempotent: after a load that succeeds, loading the
    same file again succeeds and changes nothing. *)
Theorem load_dotenv_idempotent (env env' : gmap string string)
    (file : option (list string)) :
  load_dotenv refused env file = Some env' ->
  load_dotenv refused env' file = Some env'.
Proof.
  destruct file as [lines|]; simpl; [|reflexivity].
  intros H. eapply load_lines_settled; eauto.
Qed.

End DotenvProperties.

Lemma load_dotenv_result_witness :
  <["META_ACCESS_TOKEN" := "t"]>
    (<["LEAD_FORM_ID " := "abc"]>
       (<["API_VERSION" := "17.0"]> (∅ : gmap string string)))
    !! "API_VERSION"
  = match ({["META_ACCESS_TOKEN" := "t"]} : gmap string string)
          !! "API_VERSION" with
    | Some v => Some v
    | None => first_binding "API_VERSION" sample_dotenv
    end.
Proof.
  apply (load_dotenv_result (fun _ _ => false)
           {["META_ACCESS_TOKEN" := "t"]} _ (Some sample_dotenv)
           "API_VERSION").
  vm_compute. reflexivity.
Defined.

Lemma load_dotenv_idempotent_witness :
  load_dotenv (fun _ _ => false)
    (<["META_ACCESS_TOKEN" := "t"]>
       (<["LEAD_FORM_ID " := "abc"]>
          (<["API_VERSION" := "17.0"]> (∅ : gmap string string))))
    (Some sample_dotenv)
  = Some (<["META_ACCESS_TOKEN" := "t"]>
            (<["LEAD_FORM_ID " := "abc"]>
               (<["API_VERSION" := "17.0"]> (∅ : gmap string string)))).
Proof.
  apply (load_dotenv_idempotent (fun _ _ => false)
           {["META_ACCESS_TOKEN" := "t"]} _ (Some sample_dotenv)).
  vm_compute. reflexivity.
Defined.

(** ** [main] in offline mode *)

Section OfflineProperties.

Variable since_param : option string.
Variable created_before_since : option string -> option bool.
Variable output_format : string.

Lemma main_offline_eq d sample :
  main_offline since_param created_before_since output_format d sample
  = match process_page since_param true created_before_since
            {| db := d; new_leads := [] |} (leads_of sample) with
    | (st, Aborted) => (db st, Crashed)
    | (st, Completed) =>
        (db st, Written (write_output (new_leads st) output_format))
    end.
Proof.
  unfold main_offline. rewrite process_pages_concat. simpl.
  rewrite app_nil_r. reflexivity.
Qed.

Local Abbreviation main_offline :=
  (main_offline since_param created_before_since output_format).
Local Abbreviation run := (run since_param true created_before_since).
Local Abbreviation skipped := (skipped since_param true created_before_since).

Lemma process_raw_skipped st raw :
  skipped raw = true ->
  process_raw since_param true created_before_since st raw = Some st.
Proof.
  rewrite skipped_eq, process_raw_eq.
  destruct (normalize_lead raw) as [n|]; [|reflexivity].
  destruct (Py.truthy since_param && true); [|discriminate].
  destruct (created_before_since (created_time n)) as [[|]|];
    [reflexivity | discriminate | discriminate].
Qed.

(** X25: in offline mode, when every record of the sample is rejected by
    the normaliser or older than the cutoff, the run leaves the store
    untouched and writes no file: a record filtered out by its time
    never reaches the store. *)
Theorem offline_filtered_records_leave_no_trace (d : list row)
    (sample : page_body) :
  forallb skipped (leads_of sample) = true ->
  main_offline d sample = (d, Written None).
Proof.
  intros Hall. rewrite main_offline_eq.
  assert (H : forall raws st,
            forallb skipped raws = true ->
            process_page since_param true created_before_since st raws
            = (st, Completed)).
  { induction raws as [|raw raws IH]; intros st Hs; simpl; [reflexivity|].
    simpl in Hs. apply andb_true_iff in Hs as [Hraw Hs].
    rewrite (process_raw_skipped st raw Hraw). apply IH. exact Hs. }
  rewrite (H _ _ Hall). reflexivity.
Qed.

(** X26: in offline mode with a cutoff, a record that normalises but
    whose creation time cannot be parsed or compared ends [main] by the
    exception: no file is written, the records after it are never
    processed, and the store keeps the rows of the leads ingested from
    the records before it. *)
Theorem offline_bad_timestamp_aborts (d : list row) (sample : page_body)
    (before after : list raw_lead) (raw : raw_lead) (n : flat_lead) :
  Py.truthy since_param = true ->
  leads_of sample = before ++ raw :: after ->
  normalize_lead raw = Some n ->
  created_before_since (created_time n) = None ->
  snd (run d [before]) = Completed ->
  main_offline d sample = (db (fst (run d [before])), Crashed).
Proof.
  intros Hsince Hsample Hn Hbad Hbefore.
  rewrite main_offline_eq, Hsample, process_page_app.
  rewrite run_eq, process_pages_concat in Hbefore |- *.
  simpl concat in *. rewrite app_nil_r in *.
  destruct (process_page since_param true created_before_since
              {| db := d; new_leads := [] |} before) as [st1 s1].
  simpl in Hbefore. subst s1. simpl.
  rewrite process_raw_eq, Hn, Hsince, Hbad. reflexivity.
Qed.

End OfflineProperties.

Lemma offline_filtered_records_leave_no_trace_witness :
  main_offline (Some "2026-01-01T00:00:00Z") (fun _ => Some true) "json"
    [row_of (LeadDict ann_again)] (last_body [scenario_raw; idless_raw])
  = ([row_of (LeadDict ann_again)], Written None).
Proof.
  apply (offline_filtered_records_leave_no_trace
           (Some "2026-01-01T00:00:00Z") (fun _ => Some true) "json"
           [row_of (LeadDict ann_again)]
           (last_body [scenario_raw; idless_raw])).
  reflexivity.
Defined.

Lemma offline_bad_timestamp_aborts_witness :
  main_offline (Some "2025-01-01T00:00:00Z")
    (fun ct => match ct with Some _ => Some false | None => None end) "json"
    [] (last_body [scenario_raw; phone_only_raw; idless_raw])
  = (db (fst (run (Some "2025-01-01T00:00:00Z") true
                  (fun ct => match ct with
                             | Some _ => Some false
                             | None => None
                             end)
                  [] [[scenario_raw]])),
     Crashed).
Proof.
  apply (offline_bad_timestamp_aborts (Some "2025-01-01T00:00:00Z")
           (fun ct => match ct with Some _ => Some false | None => None end)
           "json" [] (last_body [scenario_raw; phone_only_raw; idless_raw])
           [scenario_raw] [idless_raw] phone_only_raw phone_only_flat);
    reflexivity.
Defined.
